(** * notebookImagePaste: image paste/drop into a notebook markdown cell

    A shallow embedding of [extensions/ipynb/src/notebookImagePaste.ts]:
    the base64 encoder [encodeBase64], the attachment namer
    [buildAttachment] and the orchestration [buildImageMarkdown], with the
    properties the specification states about them.

    Conventions.
    - A [Uint8Array] is a [list byte]; an element read by index is the
      integer [byteZ x], and JS bit operators are [Z.shiftl], [Z.shiftr],
      [Z.lor], [Z.land] (all operands here fit in 12 bits, so the 32-bit
      wrap-around of JS never triggers).
    - A JS string is a [string]; each character stands for one code unit.
    - A JS object used as a dictionary is a [gmap string _] of its own
      properties, with the members it inherits from [Object.prototype]
      accounted for where the code reads them with [in]; an object whose
      enumeration order matters ([Object.entries]) is an association list. *)

From Stdlib Require Import ZArith Lia List Ascii String.
From Stdlib.Strings Require Import Byte.
From stdpp Require Import base option gmap strings list pretty.

Local Open Scope Z_scope.

(* ===================================================================== *)
(** * Base64 encoder *)
(* ===================================================================== *)

Module Base64.

Definition base64Alphabet : string :=
  "ABCDEFGHIJKLMNOPQRSTUVWXYZabcdefghijklmnopqrstuvwxyz0123456789+/".

Definition base64UrlSafeAlphabet : string :=
  "ABCDEFGHIJKLMNOPQRSTUVWXYZabcdefghijklmnopqrstuvwxyz0123456789-_".

(** [buffer[i]] as used by the bit operators: an index past the end reads
    [undefined], which every bit operator converts to [0]. *)
Definition byteZ (x : byte) : Z := Z.of_N (Byte.to_N x).

Definition byteAt (buffer : list byte) (i : nat) : Z :=
  match nth_error buffer i with
  | Some x => byteZ x
  | None => 0
  end.

(** [dictionary[k]]: the character at index [k], or [undefined] ([None])
    out of range. *)
Definition dictAt (dictionary : string) (k : Z) : option ascii :=
  if k <? 0 then None else String.get (Z.to_nat k) dictionary.

(** What [output += dictionary[k]] appends: a one-character string, or the
    text of [undefined]. *)
Definition charAt (dictionary : string) (k : Z) : string :=
  match dictAt dictionary k with
  | Some ch => String ch EmptyString
  | None => "undefined"
  end.

(** The four appends of one pass of the [for] loop. *)
Definition fullGroup (dictionary : string) (a b c : Z) : string :=
  charAt dictionary (Z.shiftr a 2)
  +:+ charAt dictionary (Z.land (Z.lor (Z.shiftl a 4) (Z.shiftr b 4)) 63)
  +:+ charAt dictionary (Z.land (Z.lor (Z.shiftl b 2) (Z.shiftr c 6)) 63)
  +:+ charAt dictionary (Z.land c 63).

(** [for (; i < buffer.byteLength - remainder; i += 3) { ... }], returning
    the final [i] and [output].  [fuel] bounds the number of passes;
    [encodeBase64] gives it [buffer.byteLength], more than the loop ever
    makes ([forLoop_groups]). *)
Fixpoint forLoop (dictionary : string) (buffer : list byte) (bound : nat)
    (fuel : nat) (i : nat) (output : string) : nat * string :=
  match fuel with
  | O => (i, output)
  | S fuel' =>
      if (i <? bound)%nat then
        let a := byteAt buffer (i + 0) in
        let b := byteAt buffer (i + 1) in
        let c := byteAt buffer (i + 2) in
        forLoop dictionary buffer bound fuel' (i + 3)
          (output +:+ fullGroup dictionary a b c)
      else (i, output)
  end.

Definition encodeBase64 (buffer : list byte) (padded urlSafe : bool) : string :=
  let dictionary := if urlSafe then base64UrlSafeAlphabet else base64Alphabet in
  let output := EmptyString in
  let remainder := (length buffer mod 3)%nat in
  let '(i, output) :=
    forLoop dictionary buffer (length buffer - remainder) (length buffer) O output in
  if (remainder =? 1)%nat then
    let a := byteAt buffer (i + 0) in
    let output := output +:+ charAt dictionary (Z.shiftr a 2) in
    let output := output +:+ charAt dictionary (Z.land (Z.shiftl a 4) 63) in
    if padded then output +:+ "==" else output
  else if (remainder =? 2)%nat then
    let a := byteAt buffer (i + 0) in
    let b := byteAt buffer (i + 1) in
    let output := output +:+ charAt dictionary (Z.shiftr a 2) in
    let output :=
      output +:+ charAt dictionary (Z.land (Z.lor (Z.shiftl a 4) (Z.shiftr b 4)) 63) in
    let output := output +:+ charAt dictionary (Z.land (Z.shiftl b 2) 63) in
    if padded then output +:+ "=" else output
  else output.

(** The call [encodeBase64(fileDataAsUint8)] with its default arguments. *)
Definition encodeBase64Default (buffer : list byte) : string :=
  encodeBase64 buffer true false.

(** ** The same encoder by recursion on the buffer

    Used only for proofs: [encodeBase64_groups] below shows that the indexed
    loop above computes exactly this. *)
Definition tailGroup (dictionary : string) (padded : bool) (rest : list byte) : string :=
  match rest with
  | [a] =>
      (charAt dictionary (Z.shiftr (byteZ a) 2)
       +:+ charAt dictionary (Z.land (Z.shiftl (byteZ a) 4) 63))
      +:+ (if padded then "==" else EmptyString)
  | [a; b] =>
      (charAt dictionary (Z.shiftr (byteZ a) 2)
       +:+ charAt dictionary
             (Z.land (Z.lor (Z.shiftl (byteZ a) 4) (Z.shiftr (byteZ b) 4)) 63)
       +:+ charAt dictionary (Z.land (Z.shiftl (byteZ b) 2) 63))
      +:+ (if padded then "=" else EmptyString)
  | _ => EmptyString
  end.

Fixpoint encodeGroups (dictionary : string) (padded : bool) (buffer : list byte) : string :=
  match buffer with
  | a :: b :: c :: rest =>
      fullGroup dictionary (byteZ a) (byteZ b) (byteZ c)
      +:+ encodeGroups dictionary padded rest
  | _ => tailGroup dictionary padded buffer
  end.

(** ** A reference decoder for the standard alphabet with padding

    Written independently of the encoder: four characters at a time, each
    mapped to its position in the standard alphabet; ["="] is accepted only
    as the last one or two characters of the text. *)
Fixpoint indexOf (ch : ascii) (s : string) : option Z :=
  match s with
  | EmptyString => None
  | String ch' s' =>
      if Ascii.eqb ch ch' then Some 0 else option_map Z.succ (indexOf ch s')
  end.

Definition decodeChar (ch : ascii) : option Z := indexOf ch base64Alphabet.

Definition byteOfZ (z : Z) : byte :=
  match Byte.of_N (Z.to_N (Z.land z 255)) with
  | Some x => x
  | None => "000"%byte
  end.

Definition isPad (ch : ascii) : bool := Ascii.eqb ch "="%char.

Definition decode1 (s0 s1 : Z) : list byte :=
  [byteOfZ (Z.lor (Z.shiftl s0 2) (Z.shiftr s1 4))].

Definition decode2 (s0 s1 s2 : Z) : list byte :=
  decode1 s0 s1 ++ [byteOfZ (Z.lor (Z.shiftl (Z.land s1 15) 4) (Z.shiftr s2 2))].

Definition decode3 (s0 s1 s2 s3 : Z) : list byte :=
  decode2 s0 s1 s2 ++ [byteOfZ (Z.lor (Z.shiftl (Z.land s2 3) 6) s3)].

Fixpoint decodeBase64Standard (s : string) : option (list byte) :=
  match s with
  | EmptyString => Some []
  | String c0 (String c1 (String c2 (String c3 rest))) =>
      match decodeChar c0, decodeChar c1 with
      | Some s0, Some s1 =>
          if isPad c2 then
            if isPad c3 && (String.length rest =? 0)%nat
            then Some (decode1 s0 s1) else None
          else
            match decodeChar c2 with
            | Some s2 =>
                if isPad c3 then
                  if (String.length rest =? 0)%nat
                  then Some (decode2 s0 s1 s2) else None
                else
                  match decodeChar c3, decodeBase64Standard rest with
                  | Some s3, Some bytes => Some (decode3 s0 s1 s2 s3 ++ bytes)
                  | _, _ => None
                  end
            | None => None
            end
      | _, _ => None
      end
  | _ => None
  end.

(** The substitution that turns the standard alphabet into the URL-safe one. *)
Definition urlSafeChar (ch : ascii) : ascii :=
  if Ascii.eqb ch "+"%char then "-"%char
  else if Ascii.eqb ch "/"%char then "_"%char
  else ch.

Fixpoint mapString (f : ascii -> ascii) (s : string) : string :=
  match s with
  | EmptyString => EmptyString
  | String ch s' => String (f ch) (mapString f s')
  end.

Fixpoint occurs (ch : ascii) (s : string) : bool :=
  match s with
  | EmptyString => false
  | String ch' s' => Ascii.eqb ch ch' || occurs ch s'
  end.

(** ** Definitions used to state and prove the properties *)

(** The part of [encodeBase64] after the [for] loop. *)
Definition afterLoop (dictionary : string) (padded : bool) (buffer : list byte)
    (i : nat) (output : string) : string :=
  let remainder := (length buffer mod 3)%nat in
  if (remainder =? 1)%nat then
    let a := byteAt buffer (i + 0) in
    let output := output +:+ charAt dictionary (Z.shiftr a 2) in
    let output := output +:+ charAt dictionary (Z.land (Z.shiftl a 4) 63) in
    if padded then output +:+ "==" else output
  else if (remainder =? 2)%nat then
    let a := byteAt buffer (i + 0) in
    let b := byteAt buffer (i + 1) in
    let output := output +:+ charAt dictionary (Z.shiftr a 2) in
    let output :=
      output +:+ charAt dictionary (Z.land (Z.lor (Z.shiftl a 4) (Z.shiftr b 4)) 63) in
    let output := output +:+ charAt dictionary (Z.land (Z.shiftl b 2) 63) in
    if padded then output +:+ "=" else output
  else output.

(** What the proofs need of the alphabets at index [k], as one check:
    both have a character there, the URL-safe one is the image of the
    standard one, which is not the padding and decodes back to [k]. *)
Definition sextetCheck (k : Z) : bool :=
  match dictAt base64Alphabet k, dictAt base64UrlSafeAlphabet k with
  | Some ch, Some ch' =>
      match decodeChar ch with
      | Some k' => k' =? k
      | None => false
      end
      && negb (isPad ch)
      && Ascii.eqb ch' (urlSafeChar ch)
      && negb (Ascii.eqb ch' "+") && negb (Ascii.eqb ch' "/")
  | _, _ => false
  end.

(** The 256 bytes, for checks by enumeration. *)
Definition allBytes : list byte := map byteOfZ (map Z.of_nat (seq 0 256)).

(** The sextets the encoder computes from bytes [a], [b], [c]. *)
Definition sextet0 (a : byte) : Z := Z.shiftr (byteZ a) 2.
Definition sextet1 (a b : byte) : Z :=
  Z.land (Z.lor (Z.shiftl (byteZ a) 4) (Z.shiftr (byteZ b) 4)) 63.
Definition sextet2 (b c : byte) : Z :=
  Z.land (Z.lor (Z.shiftl (byteZ b) 2) (Z.shiftr (byteZ c) 6)) 63.
Definition sextet3 (c : byte) : Z := Z.land (byteZ c) 63.
Definition sextet1Last (a : byte) : Z := Z.land (Z.shiftl (byteZ a) 4) 63.
Definition sextet2Last (b : byte) : Z := Z.land (Z.shiftl (byteZ b) 2) 63.

(** [url] is [std] with ['+'] and ['/'] replaced, and has neither. *)
Definition urlSafeImage (std url : string) : Prop :=
  url = mapString urlSafeChar std
  /\ occurs "+" url = false
  /\ occurs "/" url = false.

End Base64.

(* ===================================================================== *)
(** * Cell metadata and the attachment namer *)
(* ===================================================================== *)

Module Notebook.

(** An attachment record maps a MIME type to a base64 payload.  The namer
    reads it through [Object.entries], so the entries are kept in that
    order. *)
Abbreviation AttachmentRecord := (list (string * string)).

(** The attachment store: file name to record, the own properties of a
    plain object of the notebook's JSON.  The model covers metadata of the
    shape the notebook serializer writes: an attachments map, when present,
    is an object whose values are objects with string values. *)
Abbreviation AttachmentStore := (gmap string (list (string * string))).

(** The property names of [Object.prototype], as the ECMAScript standard
    (with its Annex B) lists them.  Every plain object inherits them, and
    [in] answers true for them.  Each is a function, or for ["__proto__"]
    the prototype object itself, and none has an enumerable own property:
    [Object.entries] of the inherited value is empty. *)
Definition objectPrototypeNames : list string :=
  [ "constructor"; "hasOwnProperty"; "isPrototypeOf"; "propertyIsEnumerable";
    "toLocaleString"; "toString"; "valueOf"; "__proto__";
    "__defineGetter__"; "__defineSetter__"; "__lookupGetter__";
    "__lookupSetter__" ].

Definition inheritedName (k : string) : bool :=
  existsb (String.eqb k) objectPrototypeNames.

(** [k in store] and [Object.entries(store[k])] in one: [None] when
    [k in store] is false; for an own key the entries of its record; for an
    inherited member no entries. *)
Definition entriesOf (store : gmap string (list (string * string))) (k : string)
    : option AttachmentRecord :=
  match store !! k with
  | Some record => Some record
  | None => if inheritedName k then Some [] else None
  end.

(** [cell.metadata.custom] and [cell.metadata]: the fields the code reads,
    plus whatever other keys the objects carry. *)
Record Custom := {
  attachments : option AttachmentStore;
  customRest : gmap string string
}.

Record Metadata := {
  custom : option Custom;
  metadataRest : gmap string string
}.

Record TextDocument := {
  documentId : nat;          (* object identity, compared by [===] *)
  documentUriPath : string
}.

Record NotebookCell := {
  cellDocument : TextDocument;
  cellIndex : nat;
  cellMetadata : Metadata;
  cellNotebookUri : string   (* [cell.notebook.uri] *)
}.

Record NotebookDocument := {
  notebookUriPath : string;
  getCells : list NotebookCell
}.

(** What a call can do: return a value, throw, or still be running when the
    fuel given to its loop is used up. *)
Inductive outcome (A : Type) : Type :=
  | Returned (a : A)
  | Threw
  | OutOfFuel.
Arguments Returned {A} a.
Arguments Threw {A}.
Arguments OutOfFuel {A}.

(** [currentCell.metadata.custom?.attachments] *)
Definition cellAttachments (m : Metadata) : option AttachmentStore :=
  match custom m with
  | Some c => attachments c
  | None => None
  end.

(** [{ 'image/png': b64 }] *)
Definition newRecord (b64 : string) : AttachmentRecord := [("image/png", b64)].

(** [filename.concat(`-${appendValue}`) + filetype] *)
Definition suffixed (filename : string) (appendValue : N) (filetype : string) : string :=
  (filename +:+ ("-" +:+ pretty appendValue)) +:+ filetype.

(** The variables of the collision loop. *)
Record LoopState := {
  appendValue : N;
  tempFilename : string
}.

(** The loop body, run when [tempFilename in startingAttachments] holds and
    [entries = Object.entries(startingAttachments[tempFilename])]: either
    [break], or fall through with the (possibly renamed) [tempFilename]. *)
Inductive bodyResult : Type :=
  | Break
  | FallThrough (tempFilename' : string).

Definition loopBody (b64 filename filetype : string) (objEntries : AttachmentRecord)
    (s : LoopState) : bodyResult :=
  match objEntries with
  | (_, attachmentb64) :: _ =>
      if String.eqb attachmentb64 b64 then Break
      else FallThrough (suffixed filename (appendValue s) filetype)
  | [] => FallThrough (tempFilename s)
  end.

(** One pass of
    [for (...; tempFilename in startingAttachments; appendValue++) { body }]:
    test the condition, run the body, run the update clause. *)
Inductive passResult : Type :=
  | Exit (settled : string)
  | Continue (s' : LoopState).

Definition loopPass (b64 filename filetype : string)
    (startingAttachments : gmap string (list (string * string)))
    (s : LoopState) : passResult :=
  match entriesOf startingAttachments (tempFilename s) with
  | None => Exit (tempFilename s)
  | Some objEntries =>
      match loopBody b64 filename filetype objEntries s with
      | Break => Exit (tempFilename s)
      | FallThrough name =>
          Continue {| appendValue := (appendValue s + 1)%N; tempFilename := name |}
      end
  end.

Fixpoint collisionLoop (fuel : nat) (b64 filename filetype : string)
    (startingAttachments : gmap string (list (string * string)))
    (s : LoopState) : option string :=
  match fuel with
  | O => None
  | S fuel' =>
      match loopPass b64 filename filetype startingAttachments s with
      | Exit settled => Some settled
      | Continue s' =>
          collisionLoop fuel' b64 filename filetype startingAttachments s'
      end
  end.

Record Attachment := {
  metadata : Metadata;
  filename : string
}.

(** [buildAttachment(b64, cell, filename, filetype, startingAttachments)].
    [outputMetadata] is a shallow copy of [cell.metadata], so the write in
    the last branch goes through the [custom] object it shares with the
    cell; the model returns the metadata value the caller receives, and the
    loop has finished reading before that write.  [startingAttachments] is
    [undefined] ([None]) when the caller found no attachments map; the [in]
    operator throws on it.  (The parameter is typed [any]; values that are
    neither [undefined] nor an attachments map of the shape above are
    outside the model.)  [fuel] bounds the passes of the collision loop:
    [OutOfFuel] stands for a call that is still looping. *)
Definition buildAttachment (fuel : nat) (b64 : string) (cell : NotebookCell)
    (filename filetype : string)
    (startingAttachments : option (gmap string (list (string * string))))
    : outcome Attachment :=
  let outputMetadata := cellMetadata cell in
  let tempFilename0 := filename +:+ filetype in
  match custom outputMetadata with
  | None =>
      Returned
        {| metadata :=
             {| custom :=
                  Some {| attachments := Some {[ tempFilename0 := newRecord b64 ]};
                          customRest := ∅ |};
                metadataRest := metadataRest outputMetadata |};
           filename := tempFilename0 |}
  | Some c =>
      match attachments c with
      | None =>
          Returned
            {| metadata :=
                 {| custom :=
                      Some {| attachments := Some {[ tempFilename0 := newRecord b64 ]};
                              customRest := customRest c |};
                    metadataRest := metadataRest outputMetadata |};
               filename := tempFilename0 |}
      | Some existing =>
          match startingAttachments with
          | None => Threw
          | Some starting =>
              match collisionLoop fuel b64 filename filetype starting
                      {| appendValue := 2; tempFilename := tempFilename0 |} with
              | None => OutOfFuel
              | Some settled =>
                  Returned
                    {| metadata :=
                         {| custom :=
                              Some {| attachments :=
                                        Some (<[ settled := newRecord b64 ]> existing);
                                      customRest := customRest c |};
                            metadataRest := metadataRest outputMetadata |};
                       filename := settled |}
              end
          end
      end
  end.

(** The attachment store a returned metadata value carries. *)
Definition updatedStore (a : Attachment) : gmap string (list (string * string)) :=
  match cellAttachments (metadata a) with
  | Some store => store
  | None => ∅
  end.

(** The store the collision loop reads when [buildImageMarkdown] makes the
    call; an absent store has no keys. *)
Definition inputStore (cell : NotebookCell) : gmap string (list (string * string)) :=
  match cellAttachments (cellMetadata cell) with
  | Some store => store
  | None => ∅
  end.

(** ** Definitions used to state the properties *)

(** The [filename] field of a returned result. *)
Definition settledName (o : outcome Attachment) : option string :=
  match o with
  | Returned a => Some (filename a)
  | _ => None
  end.

(** A markdown cell whose metadata holds exactly the attachment store [store]. *)
Definition cellWithStore (store : gmap string (list (string * string))) : NotebookCell :=
  {| cellDocument := {| documentId := 0; documentUriPath := "/nb.ipynb" |};
     cellIndex := 0;
     cellMetadata :=
       {| custom := Some {| attachments := Some store; customRest := ∅ |};
          metadataRest := ∅ |};
     cellNotebookUri := "/nb.ipynb" |}.

(** A markdown cell with metadata [m]. *)
Definition cellOf (m : Metadata) : NotebookCell :=
  {| cellDocument := {| documentId := 0; documentUriPath := "/nb.ipynb" |};
     cellIndex := 0;
     cellMetadata := m;
     cellNotebookUri := "/nb.ipynb" |}.

(** The stores of the examples. *)
Definition storeX : gmap string (list (string * string)) :=
  {[ "img.png" := [("image/png", "X")] ]}.

Definition storeXY : gmap string (list (string * string)) :=
  <[ "img-2.png" := [("image/png", "Y")] ]> storeX.

(** The call as [buildImageMarkdown] makes it: the fifth argument is the
    attachments map of the cell's own metadata. *)
Definition namer (fuel : nat) (b64 : string) (cell : NotebookCell)
    (filename filetype : string) : outcome Attachment :=
  buildAttachment fuel b64 cell filename filetype (cellAttachments (cellMetadata cell)).

Definition storeMulti : gmap string (list (string * string)) :=
  {[ "img.png" := [("image/png", "X"); ("image/jpeg", "J")] ]}.

Definition storeJpeg : gmap string (list (string * string)) :=
  {[ "img.png" := [("image/jpeg", "X")] ]}.

Definition storeNoEntries : gmap string (list (string * string)) :=
  {[ "img.png" := [] ]}.

(** Every MIME entry of every stored record is still there afterwards. *)
Definition entriesPreserved (cell : NotebookCell) (a : Attachment) : Prop :=
  forall k r e,
    inputStore cell !! k = Some r -> e ∈ r ->
    exists r', updatedStore a !! k = Some r' /\ e ∈ r'.

End Notebook.

(* ===================================================================== *)
(** * The paste/drop orchestration *)
(* ===================================================================== *)

Module ImagePaste.
Import Notebook.

(** [String.prototype.lastIndexOf] for a one-character needle: the position
    of the last occurrence, [-1] when there is none. *)
Fixpoint lastIndexOf (s : string) (ch : ascii) : Z :=
  match s with
  | EmptyString => -1
  | String ch' s' =>
      let later := lastIndexOf s' ch in
      if 0 <=? later then later + 1
      else if Ascii.eqb ch' ch then 0 else -1
  end.

(** [String.prototype.slice(start, end)]: a negative index counts from the
    end of the string, and both are clamped to the string. *)
Definition sliceIndex (len : Z) (k : Z) : Z :=
  if k <? 0 then Z.max (len + k) 0 else Z.min k len.

Definition slice (s : string) (start stop : Z) : string :=
  let len := Z.of_nat (String.length s) in
  let from := sliceIndex len start in
  let to := sliceIndex len stop in
  String.substring (Z.to_nat from) (Z.to_nat (Z.max (to - from) 0)) s.

(** [slice(start)] with the end left out. *)
Definition sliceFrom (s : string) (start : Z) : string :=
  slice s start (Z.of_nat (String.length s)).

Record DataTransferFile := {
  name : string;
  data : list byte        (* the bytes [data()] resolves to *)
}.

Record DataTransferItem := {
  asFile : option DataTransferFile
}.

(** A [DataTransfer], keyed by MIME type. *)
Abbreviation DataTransfer := (gmap string DataTransferItem).

(** The pieces appended to the [SnippetString], in order. *)
Inductive SnippetPart : Type :=
  | Text (s : string)
  | Placeholder (s : string).

(** [workspaceEdit.set(notebookUri,
      [NotebookEdit.updateCellMetadata(index, metadata)])] *)
Record WorkspaceEdit := {
  editUri : string;
  editCellIndex : nat;
  editMetadata : Metadata
}.

Record ImageMarkdown := {
  snippet : list SnippetPart;
  edit : WorkspaceEdit
}.

(** [getCellFromCellDocument], over [vscode.workspace.notebookDocuments]. *)
Definition sameDocument (d1 d2 : TextDocument) : bool :=
  Nat.eqb (documentId d1) (documentId d2).

Fixpoint findCell (cells : list NotebookCell) (doc : TextDocument) : option NotebookCell :=
  match cells with
  | [] => None
  | cell :: cells' =>
      if sameDocument (cellDocument cell) doc then Some cell
      else findCell cells' doc
  end.

Fixpoint getCellFromCellDocument (notebookDocuments : list NotebookDocument)
    (doc : TextDocument) : option NotebookCell :=
  match notebookDocuments with
  | [] => None
  | notebook :: notebooks' =>
      if String.eqb (notebookUriPath notebook) (documentUriPath doc) then
        match findCell (getCells notebook) doc with
        | Some cell => Some cell
        | None => getCellFromCellDocument notebooks' doc
        end
      else getCellFromCellDocument notebooks' doc
  end.

(** [!s] for a string: true exactly for the empty string. *)
Definition isEmpty (s : string) : bool :=
  match s with
  | EmptyString => true
  | String _ _ => false
  end.

(** [buildImageMarkdown(dataTransfer, document)]; [None] is the [undefined]
    the function returns when it declines.  A [Uint8Array] is an object and
    never falsy, so [!fileDataAsUint8] holds only when [asFile()] gave no
    file. *)
Definition buildImageMarkdown (fuel : nat) (notebookDocuments : list NotebookDocument)
    (dataTransfer : gmap string DataTransferItem) (document : TextDocument)
    : outcome (option ImageMarkdown) :=
  match dataTransfer !! "image/png" with
  | None => Returned None
  | Some dataItem =>
      match asFile dataItem with
      | None => Returned None
      | Some file =>
          let fileDataAsUint8 := data file in
          let givenFilename := name file in
          if isEmpty givenFilename then Returned None
          else
            let separatorIndex := lastIndexOf givenFilename "."%char in
            let filename := slice givenFilename 0 separatorIndex in
            let filetype := sliceFrom givenFilename separatorIndex in
            if isEmpty filename || isEmpty filetype then Returned None
            else
              match getCellFromCellDocument notebookDocuments document with
              | None => Returned None
              | Some currentCell =>
                  let notebookUri := cellNotebookUri currentCell in
                  let b64string := Base64.encodeBase64Default fileDataAsUint8 in
                  let startingAttachments :=
                    cellAttachments (cellMetadata currentCell) in
                  match buildAttachment fuel b64string currentCell filename filetype
                          startingAttachments with
                  | Returned newAttachment =>
                      Returned
                        (Some
                           {| snippet :=
                                [ Text "![";
                                  Placeholder givenFilename;
                                  Text ("](attachment:" +:+
                                          (Notebook.filename newAttachment +:+ ")")) ];
                              edit :=
                                {| editUri := notebookUri;
                                   editCellIndex := cellIndex currentCell;
                                   editMetadata := metadata newAttachment |} |})
                  | Threw => Threw
                  | OutOfFuel => OutOfFuel
                  end
              end
      end
  end.

(** ** A paste used to state the properties *)

(** A pasted PNG whose suggested file name has no ['.']; its bytes are the
    first four of the PNG signature. *)
Definition transferNoDot : gmap string DataTransferItem :=
  {[ "image/png" :=
       {| asFile := Some {| name := "image"; data := [x89; x50; x4e; x47] |} |} ]}.

(** The text document the paste goes into. *)
Definition markdownDocument : TextDocument :=
  {| documentId := 7; documentUriPath := "/nb.ipynb" |}.

(** A notebook with one markdown cell that has no [custom] metadata yet. *)
Definition freshNotebook : NotebookDocument :=
  {| notebookUriPath := "/nb.ipynb";
     getCells :=
       [ {| cellDocument := markdownDocument;
            cellIndex := 0;
            cellMetadata := {| custom := None; metadataRest := ∅ |};
            cellNotebookUri := "/nb.ipynb" |} ] |}.

End ImagePaste.

(* ===================================================================== *)
(** * The paste and drop providers *)
(* ===================================================================== *)

Module Providers.
Import Notebook ImagePaste.

(** [vscode.workspace.getConfiguration('ipynb', document)]: the settings of
    section [ipynb] that apply to a document, by key. *)
Abbreviation Configuration := (gmap string bool).

(** [configuration.get(key, defaultValue)] *)
Definition getSetting (configuration : gmap string bool) (key : string)
    (defaultValue : bool) : bool :=
  match configuration !! key with
  | Some value => value
  | None => defaultValue
  end.

Record DocumentPasteEdit := {
  pasteInsertText : list SnippetPart;
  pasteAdditionalEdit : WorkspaceEdit
}.

Record DocumentDropEdit := {
  dropInsertText : list SnippetPart;
  dropAdditionalEdit : WorkspaceEdit
}.

(** [CopyPasteEditProvider.provideDocumentPasteEdits]; the ranges and the
    cancellation token are not read. *)
Definition provideDocumentPasteEdits (fuel : nat)
    (getConfiguration : TextDocument -> gmap string bool)
    (notebookDocuments : list NotebookDocument)
    (document : TextDocument) (dataTransfer : gmap string DataTransferItem)
    : outcome (option DocumentPasteEdit) :=
  let enabled :=
    getSetting (getConfiguration document) "experimental.pasteImages.enabled" false in
  if negb enabled then Returned None
  else
    match buildImageMarkdown fuel notebookDocuments dataTransfer document with
    | Returned (Some attachmentEdit) =>
        Returned (Some {| pasteInsertText := snippet attachmentEdit;
                          pasteAdditionalEdit := edit attachmentEdit |})
    | Returned None => Returned None
    | Threw => Threw
    | OutOfFuel => OutOfFuel
    end.

(** [ImageDropEditProvider.provideDocumentDropEdits]; the position and the
    cancellation token are not read. *)
Definition provideDocumentDropEdits (fuel : nat)
    (getConfiguration : TextDocument -> gmap string bool)
    (notebookDocuments : list NotebookDocument)
    (document : TextDocument) (dataTransfer : gmap string DataTransferItem)
    : outcome (option DocumentDropEdit) :=
  let enabled :=
    getSetting (getConfiguration document) "experimental.dropImages.enabled" false in
  if negb enabled then Returned None
  else
    match buildImageMarkdown fuel notebookDocuments dataTransfer document with
    | Returned (Some attachmentEdit) =>
        Returned (Some {| dropInsertText := snippet attachmentEdit;
                          dropAdditionalEdit := edit attachmentEdit |})
    | Returned None => Returned None
    | Threw => Threw
    | OutOfFuel => OutOfFuel
    end.

End Providers.

(* ===================================================================== *)
(** * Vocabulary of the further properties *)
(* ===================================================================== *)

Module Vocabulary.
Import Base64 Notebook ImagePaste Providers.

(** The ['='] characters the padded encoder appends for [n] bytes. *)
Definition padding (n : nat) : string :=
  match (n mod 3)%nat with
  | 1%nat => "=="
  | 2%nat => "="
  | _ => EmptyString
  end.

(** Every character of [s] satisfies [p]. *)
Fixpoint forallChars (p : ascii -> bool) (s : string) : bool :=
  match s with
  | EmptyString => true
  | String ch s' => p ch && forallChars p s'
  end.

(** The dictionary [encodeBase64] selects. *)
Definition dictionaryOf (urlSafe : bool) : string :=
  if urlSafe then base64UrlSafeAlphabet else base64Alphabet.

(** The characters a decoder of the standard alphabet accepts. *)
Definition standardChar (ch : ascii) : bool :=
  occurs ch base64Alphabet || isPad ch.

(** At index [k] the selected dictionary has a character, listed in the
    dictionary and different from the padding. *)
Definition alphabetCheck (urlSafe : bool) (k : Z) : bool :=
  match dictAt (dictionaryOf urlSafe) k with
  | Some ch => occurs ch (dictionaryOf urlSafe) && negb (isPad ch)
  | None => false
  end.

(** [name] is a key of [store] whose record has a first entry with a
    payload other than [b64]: the case in which the loop renames. *)
Definition occupied (b64 : string) (store : gmap string (list (string * string)))
    (name : string) : Prop :=
  exists mime payload rest,
    store !! name = Some ((mime, payload) :: rest) /\ payload <> b64.

(** The cell once the metadata edit has been applied to it. *)
Definition withMetadata (cell : NotebookCell) (m : Metadata) : NotebookCell :=
  {| cellDocument := cellDocument cell;
     cellIndex := cellIndex cell;
     cellMetadata := m;
     cellNotebookUri := cellNotebookUri cell |}.

(** Where [slice(0, i)] ends and [slice(i)] starts in [s]. *)
Definition cutPoint (s : string) (i : Z) : nat :=
  Z.to_nat (sliceIndex (Z.of_nat (String.length s)) i).

(** The two parts [buildImageMarkdown] splits a suggested name into. *)
Definition filenameOf (givenFilename : string) : string :=
  slice givenFilename 0 (lastIndexOf givenFilename "."%char).

Definition filetypeOf (givenFilename : string) : string :=
  sliceFrom givenFilename (lastIndexOf givenFilename "."%char).

(** The snippet [buildImageMarkdown] builds for a given and a chosen name. *)
Definition snippetFor (givenFilename chosen : string) : list SnippetPart :=
  [ Text "![";
    Placeholder givenFilename;
    Text ("](attachment:" +:+ (chosen +:+ ")")) ].

(** A paste of [file] as the ['image/png'] item. *)
Definition transferOf (file : DataTransferFile) : gmap string DataTransferItem :=
  {[ "image/png" := {| asFile := Some file |} ]}.

(** Sample data for the examples. *)
Definition pngBytes : list byte := [x89; x50; x4e; x47].

Definition shotFile : DataTransferFile := {| name := "shot.png"; data := pngBytes |}.

Definition hiddenFile : DataTransferFile := {| name := ".png"; data := pngBytes |}.

Definition storeShot : gmap string (list (string * string)) :=
  {[ "shot.png" := [("image/png", "AAAA")] ]}.

Definition shotDocument : TextDocument :=
  {| documentId := 3; documentUriPath := "/nb.ipynb" |}.

Definition shotCell : NotebookCell :=
  {| cellDocument := shotDocument;
     cellIndex := 4;
     cellMetadata :=
       {| custom := Some {| attachments := Some storeShot;
                            customRest := {[ "tags" := "[]" ]} |};
          metadataRest := {[ "collapsed" := "false" ]} |};
     cellNotebookUri := "/nb.ipynb" |}.

Definition shotNotebook : NotebookDocument :=
  {| notebookUriPath := "/nb.ipynb"; getCells := [shotCell] |}.

(** Settings with only the paste flag on, and with only the drop flag on. *)
Definition pasteEnabled : TextDocument -> gmap string bool :=
  fun _ => {[ "experimental.pasteImages.enabled" := true ]}.

Definition dropEnabled : TextDocument -> gmap string bool :=
  fun _ => {[ "experimental.dropImages.enabled" := true ]}.

End Vocabulary.

(* ===================================================================== *)
(** * Properties of the encoder *)
(* ===================================================================== *)

Module Base64Facts.
Import Base64.

(** ** Strings *)

Lemma append_cons (ch : ascii) (s t : string) :
  String ch s +:+ t = String ch (s +:+ t).
Proof. reflexivity. Qed.

Lemma append_nil_l (s : string) : EmptyString +:+ s = s.
Proof. reflexivity. Qed.

Lemma append_nil_r (s : string) : s +:+ EmptyString = s.
Proof. induction s as [|ch s IH]; [reflexivity|]. rewrite append_cons. by f_equal. Qed.

Lemma append_assoc (s t u : string) : (s +:+ t) +:+ u = s +:+ (t +:+ u).
Proof.
  induction s as [|ch s IH]; [reflexivity|].
  rewrite !append_cons. by f_equal.
Qed.

Lemma length_append (s t : string) :
  String.length (s +:+ t) = (String.length s + String.length t)%nat.
Proof.
  induction s as [|ch s IH]; [reflexivity|].
  rewrite append_cons. simpl. by rewrite IH.
Qed.

Lemma mapString_append (f : ascii -> ascii) (s t : string) :
  mapString f (s +:+ t) = mapString f s +:+ mapString f t.
Proof.
  induction s as [|ch s IH]; [reflexivity|].
  rewrite append_cons. simpl. rewrite append_cons. by f_equal.
Qed.

Lemma occurs_append (ch : ascii) (s t : string) :
  occurs ch (s +:+ t) = occurs ch s || occurs ch t.
Proof.
  induction s as [|ch' s IH]; [reflexivity|].
  rewrite append_cons. simpl. rewrite IH. by rewrite orb_assoc.
Qed.

(** ** Buffers, three bytes at a time *)

Lemma list_ind3 {A : Type} (P : list A -> Prop) :
  P [] ->
  (forall a, P [a]) ->
  (forall a b, P [a; b]) ->
  (forall a b c l, P l -> P (a :: b :: c :: l)) ->
  forall l, P l.
Proof.
  intros H0 H1 H2 H3.
  refine (fix go (l : list A) : P l :=
            match l with
            | [] => H0
            | [a] => H1 a
            | [a; b] => H2 a b
            | a :: b :: c :: l' => H3 a b c l' (go l')
            end).
Qed.

Lemma byteAt_app (pre rest : list byte) (k : nat) :
  byteAt (pre ++ rest) (length pre + k) = byteAt rest k.
Proof.
  unfold byteAt. rewrite nth_error_app2 by lia.
  by replace (length pre + k - length pre)%nat with k by lia.
Qed.

Lemma encodeBase64_unfold (buffer : list byte) (padded urlSafe : bool) :
  encodeBase64 buffer padded urlSafe =
  let dictionary := if urlSafe then base64UrlSafeAlphabet else base64Alphabet in
  let r := forLoop dictionary buffer
             (length buffer - length buffer mod 3) (length buffer) O EmptyString in
  afterLoop dictionary padded buffer (fst r) (snd r).
Proof.
  unfold encodeBase64, afterLoop. cbv zeta.
  by destruct (forLoop _ _ _ _ _ _).
Qed.

Lemma mod3_app (pre rest : list byte) :
  (length pre mod 3 = 0)%nat ->
  (length (pre ++ rest) mod 3 = length rest mod 3)%nat.
Proof.
  intros Hpre. rewrite length_app.
  by rewrite Nat.Div0.add_mod, Hpre, Nat.add_0_l, Nat.Div0.mod_mod.
Qed.

Lemma forLoop_S (dictionary : string) (buffer : list byte) (bound fuel i : nat)
    (output : string) :
  forLoop dictionary buffer bound (S fuel) i output =
  if (i <? bound)%nat then
    forLoop dictionary buffer bound fuel (i + 3)
      (output +:+ fullGroup dictionary (byteAt buffer (i + 0))
                    (byteAt buffer (i + 1)) (byteAt buffer (i + 2)))
  else (i, output).
Proof. reflexivity. Qed.

Lemma forLoop_done (dictionary : string) (buffer : list byte) (fuel i : nat)
    (output : string) :
  forLoop dictionary buffer i fuel i output = (i, output).
Proof. destruct fuel; [done|]. by rewrite forLoop_S, Nat.ltb_irrefl. Qed.

(** The indexed loop, started at the end of [pre] with [rest] left to read,
    produces the groups of [rest]. *)
Lemma forLoop_groups (dictionary : string) (padded : bool) :
  forall (rest pre : list byte) (fuel : nat) (output : string),
    (length pre mod 3 = 0)%nat ->
    (length rest <= fuel)%nat ->
    let buffer := pre ++ rest in
    let r := forLoop dictionary buffer (length buffer - length buffer mod 3)
               fuel (length pre) output in
    afterLoop dictionary padded buffer (fst r) (snd r)
    = output +:+ encodeGroups dictionary padded rest.
Proof.
  induction rest as [|a|a b|a b c rest IH] using list_ind3;
    intros pre fuel output Hpre Hfuel buffer; subst buffer.
  - cbv zeta. rewrite app_nil_r, Hpre, Nat.sub_0_r.
    rewrite forLoop_done. unfold afterLoop. rewrite Hpre. simpl.
    by rewrite append_nil_r.
  - cbv zeta. assert (Hm : (length (pre ++ [a]) mod 3 = 1)%nat)
      by (by rewrite (mod3_app pre [a] Hpre)).
    rewrite Hm. rewrite length_app. simpl length.
    replace (length pre + 1 - 1)%nat with (length pre) by lia.
    rewrite forLoop_done. unfold afterLoop. rewrite Hm. simpl fst; simpl snd.
    change ((1 =? 1)%nat) with true. cbv iota zeta.
    rewrite byteAt_app. change (byteAt [a] 0) with (byteZ a).
    change (encodeGroups dictionary padded [a])
      with (tailGroup dictionary padded [a]).
    unfold tailGroup.
    destruct padded; by rewrite ?append_assoc, ?append_nil_r.
  - cbv zeta. assert (Hm : (length (pre ++ [a; b]) mod 3 = 2)%nat)
      by (by rewrite (mod3_app pre [a; b] Hpre)).
    rewrite Hm. rewrite length_app. simpl length.
    replace (length pre + 2 - 2)%nat with (length pre) by lia.
    rewrite forLoop_done. unfold afterLoop. rewrite Hm. simpl fst; simpl snd.
    change ((2 =? 1)%nat) with false. change ((2 =? 2)%nat) with true.
    cbv iota zeta.
    rewrite !byteAt_app.
    change (byteAt [a; b] 0) with (byteZ a).
    change (byteAt [a; b] 1) with (byteZ b).
    change (encodeGroups dictionary padded [a; b])
      with (tailGroup dictionary padded [a; b]).
    unfold tailGroup.
    destruct padded; by rewrite ?append_assoc, ?append_nil_r.
  - cbv zeta.
    destruct fuel as [|fuel]; [simpl in Hfuel; lia|].
    assert (Hlt : (length pre <?
                   length (pre ++ a :: b :: c :: rest)
                   - length (pre ++ a :: b :: c :: rest) mod 3)%nat = true).
    { apply Nat.ltb_lt. rewrite (mod3_app _ _ Hpre). rewrite length_app.
      simpl length.
      pose proof (Nat.mod_upper_bound (S (S (S (length rest)))) 3). lia. }
    rewrite forLoop_S, Hlt.
    rewrite !byteAt_app.
    change (byteAt (a :: b :: c :: rest) 0) with (byteZ a).
    change (byteAt (a :: b :: c :: rest) 1) with (byteZ b).
    change (byteAt (a :: b :: c :: rest) 2) with (byteZ c).
    assert (Happ : pre ++ a :: b :: c :: rest = (pre ++ [a; b; c]) ++ rest).
    { by rewrite <- app_assoc. }
    assert (Hlen : (length pre + 3)%nat = length (pre ++ [a; b; c])).
    { rewrite length_app. reflexivity. }
    rewrite Happ, Hlen.
    specialize (IH (pre ++ [a; b; c]) fuel
                  (output +:+ fullGroup dictionary (byteZ a) (byteZ b) (byteZ c))).
    cbv zeta in IH. rewrite IH.
    + simpl encodeGroups. by rewrite append_assoc.
    + rewrite length_app. simpl length.
      rewrite Nat.Div0.add_mod, Hpre. reflexivity.
    + simpl in Hfuel. lia.
Qed.

(** [encodeBase64] computes the groups of its buffer, left to right. *)
Lemma encodeBase64_groups (buffer : list byte) (padded urlSafe : bool) :
  encodeBase64 buffer padded urlSafe =
  encodeGroups (if urlSafe then base64UrlSafeAlphabet else base64Alphabet)
    padded buffer.
Proof.
  rewrite encodeBase64_unfold. cbv zeta.
  pose proof (forLoop_groups
                (if urlSafe then base64UrlSafeAlphabet else base64Alphabet)
                padded buffer [] (length buffer) EmptyString) as H.
  cbv zeta in H. simpl app in H. simpl length in H.
  rewrite H; [apply append_nil_l|reflexivity|lia].
Qed.

(** ** Sextets and alphabet lookups *)

Lemma sextetCheck_all : forallb sextetCheck (map Z.of_nat (seq 0 64)) = true.
Proof. vm_compute. reflexivity. Qed.

Lemma sextet_facts (k : Z) :
  0 <= k < 64 ->
  exists ch,
    dictAt base64Alphabet k = Some ch
    /\ dictAt base64UrlSafeAlphabet k = Some (urlSafeChar ch)
    /\ decodeChar ch = Some k
    /\ isPad ch = false
    /\ Ascii.eqb (urlSafeChar ch) "+" = false
    /\ Ascii.eqb (urlSafeChar ch) "/" = false.
Proof.
  intros Hk.
  pose proof sextetCheck_all as Hall.
  rewrite forallb_forall in Hall.
  specialize (Hall k).
  assert (Hin : In k (map Z.of_nat (seq 0 64))).
  { apply in_map_iff. exists (Z.to_nat k). split; [lia|]. apply in_seq. lia. }
  apply Hall in Hin. unfold sextetCheck in Hin.
  destruct (dictAt base64Alphabet k) as [ch|]; [|discriminate].
  destruct (dictAt base64UrlSafeAlphabet k) as [ch'|]; [|discriminate].
  destruct (decodeChar ch) as [k'|] eqn:Hdec; [|discriminate].
  repeat (apply andb_prop in Hin; destruct Hin as [Hin ?]).
  apply Z.eqb_eq in Hin. subst k'.
  apply Ascii.eqb_eq in H1. subst ch'.
  exists ch. repeat split; try done; by apply negb_true_iff.
Qed.

Lemma byteZ_range (x : byte) : 0 <= byteZ x < 256.
Proof. unfold byteZ. pose proof (Byte.to_N_bounded x). lia. Qed.

Lemma land63_range (x : Z) : 0 <= Z.land x 63 < 64.
Proof.
  change 63 with (Z.ones 6). rewrite Z.land_ones by lia.
  apply Z.mod_pos_bound. lia.
Qed.

Lemma shr2_range (x : byte) : 0 <= Z.shiftr (byteZ x) 2 < 64.
Proof.
  pose proof (byteZ_range x). rewrite Z.shiftr_div_pow2 by lia.
  change (2 ^ 2) with 4. split.
  - apply Z.div_pos; lia.
  - apply Z.div_lt_upper_bound; lia.
Qed.

(** Every index the encoder computes selects a character of the alphabet:
    the [undefined] branch of [charAt] is never taken. *)
Lemma charAt_std (k : Z) :
  0 <= k < 64 ->
  exists ch,
    charAt base64Alphabet k = String ch EmptyString
    /\ charAt base64UrlSafeAlphabet k = String (urlSafeChar ch) EmptyString
    /\ decodeChar ch = Some k
    /\ isPad ch = false
    /\ Ascii.eqb (urlSafeChar ch) "+" = false
    /\ Ascii.eqb (urlSafeChar ch) "/" = false.
Proof.
  intros Hk. destruct (sextet_facts k Hk) as (ch & H1 & H2 & H3 & H4 & H5 & H6).
  exists ch. unfold charAt. by rewrite H1, H2.
Qed.

Lemma charAt_length (urlSafe : bool) (k : Z) :
  0 <= k < 64 ->
  String.length
    (charAt (if urlSafe then base64UrlSafeAlphabet else base64Alphabet) k) = 1%nat.
Proof.
  intros Hk. destruct (charAt_std k Hk) as (ch & H1 & H2 & _).
  destruct urlSafe; by rewrite ?H1, ?H2.
Qed.

(** ** Exhaustive checks over bytes *)

Lemma byteOfZ_byteZ (x : byte) : byteOfZ (byteZ x) = x.
Proof. by destruct x. Qed.

Lemma in_allBytes (x : byte) : In x allBytes.
Proof.
  pose proof (byteZ_range x).
  apply in_map_iff. exists (byteZ x). split; [apply byteOfZ_byteZ|].
  apply in_map_iff. exists (Z.to_nat (byteZ x)). split; [lia|].
  apply in_seq. lia.
Qed.

Lemma forall_byte (P : byte -> bool) :
  forallb P allBytes = true -> forall x, P x = true.
Proof. intros H x. rewrite forallb_forall in H. apply H, in_allBytes. Qed.

Lemma forall_byte2 (P : byte -> byte -> bool) :
  forallb (fun a => forallb (P a) allBytes) allBytes = true ->
  forall a b, P a b = true.
Proof.
  intros H a b. apply forall_byte. apply (forall_byte _ H a).
Qed.

Lemma first_byte (a b : byte) :
  byteOfZ (Z.lor (Z.shiftl (sextet0 a) 2) (Z.shiftr (sextet1 a b) 4)) = a.
Proof.
  apply Byte.byte_dec_bl.
  revert a b. apply forall_byte2. vm_compute. reflexivity.
Qed.

Lemma first_byte_last (a : byte) :
  byteOfZ (Z.lor (Z.shiftl (sextet0 a) 2) (Z.shiftr (sextet1Last a) 4)) = a.
Proof.
  apply Byte.byte_dec_bl.
  revert a. apply forall_byte. vm_compute. reflexivity.
Qed.

Lemma second_byte_high (a b : byte) :
  Z.shiftl (Z.land (sextet1 a b) 15) 4 = Z.shiftl (Z.shiftr (byteZ b) 4) 4.
Proof.
  apply Z.eqb_eq.
  revert a b. apply forall_byte2. vm_compute. reflexivity.
Qed.

Lemma second_byte_low (b c : byte) :
  Z.shiftr (sextet2 b c) 2 = Z.land (byteZ b) 15.
Proof.
  apply Z.eqb_eq.
  revert b c. apply forall_byte2. vm_compute. reflexivity.
Qed.

Lemma second_byte_low_last (b : byte) :
  Z.shiftr (sextet2Last b) 2 = Z.land (byteZ b) 15.
Proof.
  apply Z.eqb_eq.
  revert b. apply forall_byte. vm_compute. reflexivity.
Qed.

Lemma second_byte_join (b : byte) :
  byteOfZ (Z.lor (Z.shiftl (Z.shiftr (byteZ b) 4) 4) (Z.land (byteZ b) 15)) = b.
Proof.
  apply Byte.byte_dec_bl.
  revert b. apply forall_byte. vm_compute. reflexivity.
Qed.

Lemma second_byte (a b c : byte) :
  byteOfZ (Z.lor (Z.shiftl (Z.land (sextet1 a b) 15) 4)
             (Z.shiftr (sextet2 b c) 2)) = b.
Proof.
  rewrite second_byte_high, second_byte_low. apply second_byte_join.
Qed.

Lemma second_byte_last (a b : byte) :
  byteOfZ (Z.lor (Z.shiftl (Z.land (sextet1 a b) 15) 4)
             (Z.shiftr (sextet2Last b) 2)) = b.
Proof.
  rewrite second_byte_high, second_byte_low_last. apply second_byte_join.
Qed.

Lemma third_byte (b c : byte) :
  byteOfZ (Z.lor (Z.shiftl (Z.land (sextet2 b c) 3) 6) (sextet3 c)) = c.
Proof.
  apply Byte.byte_dec_bl.
  revert b c. apply forall_byte2. vm_compute. reflexivity.
Qed.

(** ** Round trip through the reference decoder *)

Lemma decode_quad (c0 c1 c2 c3 : ascii) (rest : string) (s0 s1 s2 s3 : Z) :
  decodeChar c0 = Some s0 -> decodeChar c1 = Some s1 ->
  decodeChar c2 = Some s2 -> decodeChar c3 = Some s3 ->
  isPad c2 = false -> isPad c3 = false ->
  decodeBase64Standard (String c0 (String c1 (String c2 (String c3 rest)))) =
  match decodeBase64Standard rest with
  | Some bytes => Some (decode3 s0 s1 s2 s3 ++ bytes)
  | None => None
  end.
Proof.
  intros H0 H1 H2 H3 P2 P3.
  change (decodeBase64Standard (String c0 (String c1 (String c2 (String c3 rest)))))
    with (match decodeChar c0, decodeChar c1 with
          | Some s0, Some s1 =>
              if isPad c2 then
                if isPad c3 && (String.length rest =? 0)%nat
                then Some (decode1 s0 s1) else None
              else
                match decodeChar c2 with
                | Some s2 =>
                    if isPad c3 then
                      if (String.length rest =? 0)%nat
                      then Some (decode2 s0 s1 s2) else None
                    else
                      match decodeChar c3, decodeBase64Standard rest with
                      | Some s3, Some bytes => Some (decode3 s0 s1 s2 s3 ++ bytes)
                      | _, _ => None
                      end
                | None => None
                end
          | _, _ => None
          end).
  by rewrite H0, H1, P2, H2, P3, H3.
Qed.

Lemma decode_pad1 (c0 c1 c2 : ascii) (s0 s1 s2 : Z) :
  decodeChar c0 = Some s0 -> decodeChar c1 = Some s1 ->
  decodeChar c2 = Some s2 -> isPad c2 = false ->
  decodeBase64Standard (String c0 (String c1 (String c2 "="))) =
  Some (decode2 s0 s1 s2).
Proof.
  intros H0 H1 H2 P2.
  change (decodeBase64Standard (String c0 (String c1 (String c2 "="))))
    with (match decodeChar c0, decodeChar c1 with
          | Some s0, Some s1 =>
              if isPad c2 then Some (decode1 s0 s1)
              else
                match decodeChar c2 with
                | Some s2 => Some (decode2 s0 s1 s2)
                | None => None
                end
          | _, _ => None
          end).
  by rewrite H0, H1, P2, H2.
Qed.

Lemma decode_pad2 (c0 c1 : ascii) (s0 s1 : Z) :
  decodeChar c0 = Some s0 -> decodeChar c1 = Some s1 ->
  decodeBase64Standard (String c0 (String c1 "==")) = Some (decode1 s0 s1).
Proof.
  intros H0 H1.
  change (decodeBase64Standard (String c0 (String c1 "==")))
    with (match decodeChar c0, decodeChar c1 with
          | Some s0, Some s1 => Some (decode1 s0 s1)
          | _, _ => None
          end).
  by rewrite H0, H1.
Qed.

Ltac sextet_range :=
  first [ apply land63_range | apply shr2_range ].

Lemma decode_encodeGroups (buffer : list byte) :
  decodeBase64Standard (encodeGroups base64Alphabet true buffer) = Some buffer.
Proof.
  induction buffer as [|a|a b|a b c rest IH] using list_ind3.
  - reflexivity.
  - change (encodeGroups base64Alphabet true [a])
      with ((charAt base64Alphabet (sextet0 a)
             +:+ charAt base64Alphabet (sextet1Last a)) +:+ "==").
    destruct (charAt_std (sextet0 a)) as (c0 & E0 & _ & D0 & _); [sextet_range|].
    destruct (charAt_std (sextet1Last a)) as (c1 & E1 & _ & D1 & _); [sextet_range|].
    rewrite E0, E1.
    change ((String c0 EmptyString +:+ String c1 EmptyString) +:+ "==") with (String c0 (String c1 "==")).
    rewrite (decode_pad2 _ _ _ _ D0 D1).
    unfold decode1. by rewrite first_byte_last.
  - change (encodeGroups base64Alphabet true [a; b])
      with ((charAt base64Alphabet (sextet0 a)
             +:+ charAt base64Alphabet (sextet1 a b)
             +:+ charAt base64Alphabet (sextet2Last b)) +:+ "=").
    destruct (charAt_std (sextet0 a)) as (c0 & E0 & _ & D0 & _); [sextet_range|].
    destruct (charAt_std (sextet1 a b)) as (c1 & E1 & _ & D1 & _); [sextet_range|].
    destruct (charAt_std (sextet2Last b)) as (c2 & E2 & _ & D2 & P2 & _);
      [sextet_range|].
    rewrite E0, E1, E2.
    change ((String c0 EmptyString +:+ String c1 EmptyString +:+ String c2 EmptyString) +:+ "=")
      with (String c0 (String c1 (String c2 "="))).
    rewrite (decode_pad1 _ _ _ _ _ _ D0 D1 D2 P2).
    unfold decode2, decode1. simpl app.
    by rewrite first_byte, second_byte_last.
  - change (encodeGroups base64Alphabet true (a :: b :: c :: rest))
      with ((charAt base64Alphabet (sextet0 a)
             +:+ charAt base64Alphabet (sextet1 a b)
             +:+ charAt base64Alphabet (sextet2 b c)
             +:+ charAt base64Alphabet (sextet3 c))
            +:+ encodeGroups base64Alphabet true rest).
    destruct (charAt_std (sextet0 a)) as (c0 & E0 & _ & D0 & _); [sextet_range|].
    destruct (charAt_std (sextet1 a b)) as (c1 & E1 & _ & D1 & _); [sextet_range|].
    destruct (charAt_std (sextet2 b c)) as (c2 & E2 & _ & D2 & P2 & _);
      [sextet_range|].
    destruct (charAt_std (sextet3 c)) as (c3 & E3 & _ & D3 & P3 & _);
      [sextet_range|].
    rewrite E0, E1, E2, E3.
    change ((String c0 EmptyString +:+ String c1 EmptyString +:+ String c2 EmptyString +:+ String c3 EmptyString)
            +:+ encodeGroups base64Alphabet true rest)
      with (String c0 (String c1 (String c2 (String c3
              (encodeGroups base64Alphabet true rest))))).
    rewrite (decode_quad _ _ _ _ _ _ _ _ _ D0 D1 D2 D3 P2 P3), IH.
    unfold decode3, decode2, decode1. simpl app.
    by rewrite first_byte, second_byte, third_byte.
Qed.

(** C2: decoding the default (padded, standard-alphabet) output of
    [encodeBase64] with the reference decoder gives the bytes back. *)
Theorem encodeBase64_roundtrip (b : list byte) :
  decodeBase64Standard (encodeBase64 b true false) = Some b.
Proof. rewrite encodeBase64_groups. apply decode_encodeGroups. Qed.

(** ** Output length *)

Lemma fullGroup_length (urlSafe : bool) (a b c : byte) :
  String.length
    (fullGroup (if urlSafe then base64UrlSafeAlphabet else base64Alphabet)
       (byteZ a) (byteZ b) (byteZ c)) = 4%nat.
Proof.
  unfold fullGroup. rewrite !length_append.
  rewrite !charAt_length by sextet_range. reflexivity.
Qed.

Lemma tailGroup_length (urlSafe padded : bool) (rest : list byte) :
  (length rest < 3)%nat ->
  String.length
    (tailGroup (if urlSafe then base64UrlSafeAlphabet else base64Alphabet)
       padded rest) =
  if (length rest =? 0)%nat then 0%nat
  else if padded then 4%nat else S (length rest).
Proof.
  intros Hlen.
  destruct rest as [|a [|b [|c rest]]]; [reflexivity| | |simpl in Hlen; lia].
  - unfold tailGroup. rewrite !length_append.
    rewrite !charAt_length by sextet_range. by destruct padded.
  - unfold tailGroup. rewrite !length_append.
    rewrite !charAt_length by sextet_range. by destruct padded.
Qed.

Lemma encodeGroups_length (urlSafe padded : bool) (buffer : list byte) :
  String.length
    (encodeGroups (if urlSafe then base64UrlSafeAlphabet else base64Alphabet)
       padded buffer) =
  (length buffer / 3 * 4 +
   (if (length buffer mod 3 =? 0)%nat then 0
    else if padded then 4 else S (length buffer mod 3)))%nat.
Proof.
  induction buffer as [|a|a b|a b c rest IH] using list_ind3.
  - reflexivity.
  - exact (tailGroup_length urlSafe padded [a] ltac:(simpl; lia)).
  - exact (tailGroup_length urlSafe padded [a; b] ltac:(simpl; lia)).
  - change (encodeGroups ?d padded (a :: b :: c :: rest))
      with (fullGroup d (byteZ a) (byteZ b) (byteZ c) +:+ encodeGroups d padded rest).
    rewrite length_append, fullGroup_length, IH.
    change (length (a :: b :: c :: rest)) with (1 * 3 + length rest)%nat.
    rewrite Nat.div_add_l by lia.
    rewrite (Nat.add_comm (1 * 3)), Nat.Div0.mod_add. lia.
Qed.

(** C8: [encodeBase64] is total; the empty buffer gives the empty string;
    a buffer of [n] bytes gives [ceil(n/3)*4] characters when padded (written
    [(n + 2) / 3 * 4]) and [floor(n/3)*4 + (0 or n mod 3 + 1)] characters
    when not. *)
Theorem encodeBase64_length (buffer : list byte) (padded urlSafe : bool) :
  let n := length buffer in
  encodeBase64 [] padded urlSafe = EmptyString
  /\ String.length (encodeBase64 buffer true urlSafe) = ((n + 2) / 3 * 4)%nat
  /\ String.length (encodeBase64 buffer false urlSafe) =
     (n / 3 * 4 + (if (n mod 3 =? 0)%nat then 0 else n mod 3 + 1))%nat.
Proof.
  intros n. split; [by destruct padded, urlSafe|].
  rewrite !encodeBase64_groups, !encodeGroups_length. fold n.
  pose proof (Nat.div_mod_eq n 3) as Hn.
  pose proof (Nat.mod_upper_bound n 3 ltac:(lia)) as Hr.
  split.
  - replace (n + 2)%nat with ((n mod 3 + 2) + (n / 3) * 3)%nat by lia.
    rewrite Nat.div_add by lia.
    destruct (n mod 3)%nat as [|[|[|r]]] eqn:Er; [| | |lia].
    + change ((0 + 2) / 3)%nat with 0%nat. cbn [Nat.eqb]. lia.
    + change ((1 + 2) / 3)%nat with 1%nat. cbn [Nat.eqb]. lia.
    + change ((2 + 2) / 3)%nat with 1%nat. cbn [Nat.eqb]. lia.
  - destruct (n mod 3 =? 0)%nat; lia.
Qed.

(** ** The URL-safe alphabet *)

Lemma get_mapString (f : ascii -> ascii) (s : string) (i : nat) :
  String.get i (mapString f s) = option_map f (String.get i s).
Proof.
  revert i. induction s as [|ch s IH]; intros i; [reflexivity|].
  destruct i as [|i]; [reflexivity|]. simpl. apply IH.
Qed.

Lemma length_mapString (f : ascii -> ascii) (s : string) :
  String.length (mapString f s) = String.length s.
Proof. induction s as [|ch s IH]; [reflexivity|]. simpl. by rewrite IH. Qed.

Lemma urlSafeImage_append (s s' t t' : string) :
  urlSafeImage s s' -> urlSafeImage t t' -> urlSafeImage (s +:+ t) (s' +:+ t').
Proof.
  intros (-> & Hs1 & Hs2) (-> & Ht1 & Ht2). unfold urlSafeImage.
  by rewrite mapString_append, !occurs_append, Hs1, Hs2, Ht1, Ht2.
Qed.

Lemma occurs_single (x ch : ascii) : occurs x (String ch EmptyString) = Ascii.eqb ch x.
Proof. unfold occurs. rewrite orb_false_r. apply Ascii.eqb_sym. Qed.

Lemma urlSafeImage_charAt (k : Z) :
  0 <= k < 64 ->
  urlSafeImage (charAt base64Alphabet k) (charAt base64UrlSafeAlphabet k).
Proof.
  intros Hk. destruct (charAt_std k Hk) as (ch & E & E' & _ & _ & Hp & Hs).
  rewrite E, E'. unfold urlSafeImage.
  by rewrite !occurs_single, Hp, Hs.
Qed.

Lemma urlSafeImage_padding (padded : bool) (pad : string) :
  pad = "=" \/ pad = "==" ->
  urlSafeImage (if padded then pad else EmptyString) (if padded then pad else EmptyString).
Proof. intros [-> | ->]; by destruct padded. Qed.

Lemma urlSafeImage_groups (padded : bool) (buffer : list byte) :
  urlSafeImage (encodeGroups base64Alphabet padded buffer)
    (encodeGroups base64UrlSafeAlphabet padded buffer).
Proof.
  induction buffer as [|a|a b|a b c rest IH] using list_ind3.
  - done.
  - change (encodeGroups ?d padded [a]) with (tailGroup d padded [a]).
    unfold tailGroup.
    repeat apply urlSafeImage_append;
      first [ apply urlSafeImage_charAt; sextet_range
            | apply urlSafeImage_padding; auto ].
  - change (encodeGroups ?d padded [a; b]) with (tailGroup d padded [a; b]).
    unfold tailGroup.
    repeat apply urlSafeImage_append;
      first [ apply urlSafeImage_charAt; sextet_range
            | apply urlSafeImage_padding; auto ].
  - change (encodeGroups ?d padded (a :: b :: c :: rest))
      with (fullGroup d (byteZ a) (byteZ b) (byteZ c) +:+ encodeGroups d padded rest).
    unfold fullGroup.
    repeat apply urlSafeImage_append;
      first [ apply urlSafeImage_charAt; sextet_range | exact IH ].
Qed.

(** C9: the URL-safe output has no ['+'] and no ['/'], has the length of
    the standard output, and at every position carries the standard output's
    character, except that ['+'] is replaced by ['-'] and ['/'] by ['_']. *)
Theorem encodeBase64_urlSafe (buffer : list byte) (padded : bool) :
  let std := encodeBase64 buffer padded false in
  let url := encodeBase64 buffer padded true in
  occurs "+" url = false
  /\ occurs "/" url = false
  /\ String.length url = String.length std
  /\ forall i : nat,
       String.get i url = String.get i std
       \/ (String.get i std = Some "+"%char /\ String.get i url = Some "-"%char)
       \/ (String.get i std = Some "/"%char /\ String.get i url = Some "_"%char).
Proof.
  cbv zeta. rewrite !encodeBase64_groups.
  destruct (urlSafeImage_groups padded buffer) as (Hmap & Hplus & Hslash).
  repeat split; [done|done|by rewrite Hmap, length_mapString|].
  intros i. rewrite Hmap, get_mapString.
  destruct (String.get i (encodeGroups base64Alphabet padded buffer)) as [ch|];
    [|by left].
  simpl. unfold urlSafeChar.
  destruct (Ascii.eqb ch "+") eqn:Ep.
  { apply Ascii.eqb_eq in Ep. subst ch. right. by left. }
  destruct (Ascii.eqb ch "/") eqn:Es.
  { apply Ascii.eqb_eq in Es. subst ch. right. by right. }
  by left.
Qed.

End Base64Facts.
(* ===================================================================== *)
(** * Properties of the attachment namer *)
(* ===================================================================== *)

Module NamerFacts.
Import Notebook.
Import Base64Facts.

(** C1: with ["img.png" -> {"image/png": "X"}] stored, payload ["X"] settles
    on ["img.png"], payload ["Y"] on ["img-2.png"], and on the store that
    second call returns, a third payload ["Z"] settles on ["img-3.png"]. *)
Theorem namer_examples (fuel : nat) :
  settledName (namer (1 + fuel) "X" (cellWithStore storeX) "img" ".png")
    = Some "img.png"
  /\ settledName (namer (2 + fuel) "Y" (cellWithStore storeX) "img" ".png")
    = Some "img-2.png"
  /\ exists second,
       namer (2 + fuel) "Y" (cellWithStore storeX) "img" ".png" = Returned second
       /\ updatedStore second = storeXY
       /\ settledName (namer (3 + fuel) "Z" (cellOf (metadata second)) "img" ".png")
          = Some "img-3.png".
Proof.
  split; [|split].
  - vm_compute. reflexivity.
  - vm_compute. reflexivity.
  - eexists. split; [vm_compute; reflexivity|].
    split; vm_compute; reflexivity.
Qed.

Local Open Scope nat_scope.

(** ** One pass of the collision loop *)

Section Loop.
Variables (b64 filename filetype : string).
Variable starting : gmap string (list (string * string)).

Abbreviation pass := (loopPass b64 filename filetype starting).
Abbreviation loop := (fun fuel => collisionLoop fuel b64 filename filetype starting).

Lemma pass_absent (s : LoopState) :
  starting !! tempFilename s = None ->
  inheritedName (tempFilename s) = false ->
  pass s = Exit (tempFilename s).
Proof. intros H Hi. unfold loopPass, entriesOf. by rewrite H, Hi. Qed.

Lemma pass_inherited (s : LoopState) :
  starting !! tempFilename s = None ->
  inheritedName (tempFilename s) = true ->
  pass s = Continue {| appendValue := (appendValue s + 1)%N;
                       tempFilename := tempFilename s |}.
Proof. intros H Hi. unfold loopPass, entriesOf. by rewrite H, Hi. Qed.

Lemma pass_same_payload (s : LoopState) (mime : string) (rest : list (string * string)) :
  starting !! tempFilename s = Some ((mime, b64) :: rest) ->
  pass s = Exit (tempFilename s).
Proof.
  intros H. unfold loopPass, entriesOf, loopBody. by rewrite H, String.eqb_refl.
Qed.

Lemma pass_other_payload (s : LoopState) (mime payload : string)
    (rest : list (string * string)) :
  starting !! tempFilename s = Some ((mime, payload) :: rest) ->
  payload <> b64 ->
  pass s = Continue {| appendValue := (appendValue s + 1)%N;
                       tempFilename := suffixed filename (appendValue s) filetype |}.
Proof.
  intros H Hne. unfold loopPass, entriesOf, loopBody. rewrite H.
  apply String.eqb_neq in Hne. by rewrite Hne.
Qed.

Lemma pass_no_entries (s : LoopState) :
  starting !! tempFilename s = Some [] ->
  pass s = Continue {| appendValue := (appendValue s + 1)%N;
                       tempFilename := tempFilename s |}.
Proof. intros H. unfold loopPass, entriesOf, loopBody. by rewrite H. Qed.

Lemma loop_S (fuel : nat) (s : LoopState) :
  loop (S fuel) s =
  match pass s with
  | Exit settled => Some settled
  | Continue s' => loop fuel s'
  end.
Proof. reflexivity. Qed.

(** More fuel never changes a result already reached. *)
Lemma loop_more_fuel (fuel fuel' : nat) (s : LoopState) (settled : string) :
  fuel <= fuel' -> loop fuel s = Some settled -> loop fuel' s = Some settled.
Proof.
  revert fuel' s. induction fuel as [|fuel IH]; intros fuel' s Hle H; [done|].
  destruct fuel' as [|fuel']; [lia|].
  rewrite loop_S in *. destruct (pass s); [done|].
  apply IH; [lia|done].
Qed.

(** The name the loop settles on is free in the store it reads, or is
    occupied by a record whose first payload is the new one. *)
Lemma loop_settled (fuel : nat) (s : LoopState) (settled : string) :
  loop fuel s = Some settled ->
  starting !! settled = None
  \/ exists mime rest, starting !! settled = Some ((mime, b64) :: rest).
Proof.
  revert s. induction fuel as [|fuel IH]; intros s H; [done|].
  rewrite loop_S in H. unfold loopPass, entriesOf, loopBody in H.
  destruct (starting !! tempFilename s) as [[|[mime payload] rest]|] eqn:Hs.
  - by apply IH in H.
  - destruct (String.eqb payload b64) eqn:He.
    + injection H as <-. apply String.eqb_eq in He. subst payload.
      right. by exists mime, rest.
    + by apply IH in H.
  - destruct (inheritedName (tempFilename s)).
    + by apply IH in H.
    + injection H as <-. by left.
Qed.

(** A record without entries under the candidate name keeps the loop
    running on that same name: no amount of fuel lets it exit. *)
Lemma loop_stuck (fuel : nat) (s : LoopState) :
  starting !! tempFilename s = Some [] -> loop fuel s = None.
Proof.
  revert s. induction fuel as [|fuel IH]; intros s H; [done|].
  rewrite loop_S, (pass_no_entries s H). by apply IH.
Qed.

(** So does a candidate that is no key of the store but the name of an
    inherited member: [in] holds, the entries are empty, the name stays. *)
Lemma loop_stuck_inherited (fuel : nat) (s : LoopState) :
  starting !! tempFilename s = None ->
  inheritedName (tempFilename s) = true ->
  loop fuel s = None.
Proof.
  revert s. induction fuel as [|fuel IH]; intros s H Hi; [done|].
  rewrite loop_S, (pass_inherited s H Hi). by apply IH.
Qed.

(** ** Termination: the suffixed names are pairwise distinct *)

Lemma inherited_no_dash (k : string) :
  inheritedName k = true -> Base64.occurs "-" k = false.
Proof.
  unfold inheritedName, objectPrototypeNames. cbn [existsb].
  rewrite !orb_true_iff.
  intros H. repeat destruct H as [H|H]; try discriminate;
    apply String.eqb_eq in H; by subst k.
Qed.

Lemma suffixed_not_inherited (k : N) :
  inheritedName (suffixed filename k filetype) = false.
Proof.
  destruct (inheritedName (suffixed filename k filetype)) eqn:Hi; [|done].
  apply inherited_no_dash in Hi. unfold suffixed in Hi.
  rewrite !occurs_append in Hi.
  change (Base64.occurs "-" "-") with true in Hi.
  by rewrite orb_true_r in Hi.
Qed.

Lemma append_inv_tail (s s' t : string) : s +:+ t = s' +:+ t -> s = s'.
Proof.
  revert s'. induction s as [|ch s IH]; intros [|ch' s'] H.
  - done.
  - apply (f_equal String.length) in H.
    rewrite append_nil_l, append_cons in H. simpl in H.
    rewrite length_append in H. lia.
  - apply (f_equal String.length) in H.
    rewrite append_nil_l, append_cons in H. simpl in H.
    rewrite length_append in H. lia.
  - rewrite !append_cons in H. injection H as -> H. f_equal. by apply IH.
Qed.

Lemma suffixed_inj (k k' : N) :
  suffixed filename k filetype = suffixed filename k' filetype -> k = k'.
Proof.
  unfold suffixed. intros H.
  apply append_inv_tail in H.
  apply (inj (String.append filename)) in H.
  apply (inj (String.append "-")) in H.
  by apply (inj pretty) in H.
Qed.

Hypothesis records_nonempty :
  forall k r, starting !! k = Some r -> r <> [].

(** Started on the suffixed name for [a], with every occupied later
    suffixed name inside a set of at most [n] names, the loop exits within
    [n + 1] passes. *)
Lemma loop_exits_suffixed (n : nat) :
  forall (names : gset string) (a : N),
    size names <= n ->
    (forall k, (a <= k)%N ->
       is_Some (starting !! suffixed filename k filetype) ->
       suffixed filename k filetype ∈ names) ->
    exists settled,
      loop (S n) {| appendValue := (a + 1)%N;
                    tempFilename := suffixed filename a filetype |} = Some settled.
Proof.
  induction n as [|n IH]; intros names a Hsize Hnames.
  - rewrite loop_S.
    destruct (starting !! suffixed filename a filetype) as [r|] eqn:Hs.
    + assert (Hin : suffixed filename a filetype ∈ names).
      { apply Hnames; [lia|]. by rewrite Hs. }
      assert (Hempty : names ≡ ∅) by (apply size_empty_inv; lia).
      set_solver.
    + rewrite pass_absent by first [done | apply suffixed_not_inherited]. eauto.
  - rewrite loop_S.
    destruct (starting !! suffixed filename a filetype)
      as [[|[mime payload] rest]|] eqn:Hs.
    + by apply records_nonempty in Hs.
    + destruct (decide (payload = b64)) as [->|Hne].
      * erewrite pass_same_payload by exact Hs. eauto.
      * erewrite pass_other_payload by (exact Hs || exact Hne).
        cbn [appendValue].
        replace (a + 1 + 1)%N with ((a + 1) + 1)%N by lia.
        apply (IH (names ∖ {[ suffixed filename a filetype ]})).
        -- assert (Hin : suffixed filename a filetype ∈ names).
           { apply Hnames; [lia|]. by rewrite Hs. }
           rewrite size_difference by set_solver.
           rewrite size_singleton.
           assert (size names <> 0).
           { intros Hz. apply size_empty_inv in Hz. set_solver. }
           lia.
        -- intros k Hk Hsome.
           apply elem_of_difference. split; [apply Hnames; [lia|done]|].
           rewrite elem_of_singleton. intros Heq.
           apply suffixed_inj in Heq. lia.
    + rewrite pass_absent by first [done | apply suffixed_not_inherited]. eauto.
Qed.

(** From the initial state the loop exits within [size starting + 2]
    passes, unless [filename + filetype] is an inherited name that is no
    key of the store. *)
Lemma loop_exits :
  (starting !! (filename +:+ filetype) = None ->
   inheritedName (filename +:+ filetype) = false) ->
  exists settled,
    forall fuel, size starting + 2 <= fuel ->
      loop fuel {| appendValue := 2; tempFilename := filename +:+ filetype |}
      = Some settled.
Proof.
  intros Hplain.
  set (s0 := {| appendValue := 2%N; tempFilename := filename +:+ filetype |}).
  assert (Hex : exists settled, loop (size starting + 2) s0 = Some settled).
  { replace (size starting + 2) with (S (S (size starting))) by lia.
    rewrite loop_S.
    destruct (starting !! tempFilename s0) as [[|[mime payload] rest]|] eqn:Hs.
    - by apply records_nonempty in Hs.
    - destruct (decide (payload = b64)) as [->|Hne].
      + erewrite pass_same_payload by exact Hs. eauto.
      + erewrite pass_other_payload by (exact Hs || exact Hne).
        apply (loop_exits_suffixed (size starting) (dom starting) 2%N).
        * by rewrite size_dom.
        * intros k _ Hk. by apply elem_of_dom.
    - rewrite pass_absent by first [done | by apply Hplain]. eauto. }
  destruct Hex as [settled Hsettled]. exists settled.
  intros fuel Hfuel. by apply (loop_more_fuel (size starting + 2)).
Qed.

End Loop.

(** ** The namer as a whole *)

Lemma namer_returned (fuel : nat) (b64 : string) (cell : NotebookCell)
    (fn ft : string) (starting : option (gmap string (list (string * string))))
    (a : Attachment) :
  buildAttachment fuel b64 cell fn ft starting = Returned a ->
  updatedStore a = <[ filename a := newRecord b64 ]> (inputStore cell)
  /\ (cellAttachments (cellMetadata cell) = None /\ filename a = fn +:+ ft
      \/ exists store,
           starting = Some store
           /\ is_Some (cellAttachments (cellMetadata cell))
           /\ collisionLoop fuel b64 fn ft store
                {| appendValue := 2; tempFilename := fn +:+ ft |}
              = Some (filename a)).
Proof.
  unfold buildAttachment, updatedStore, inputStore, cellAttachments.
  destruct (custom (cellMetadata cell)) as [c|].
  - destruct (attachments c) as [existing|].
    + destruct starting as [store|]; [|done].
      destruct (collisionLoop _ _ _ _ _ _) as [settled|] eqn:Hloop; [|done].
      intros [= <-]. simpl. split; [done|]. right. exists store. eauto.
    + intros [= <-]. simpl. split; [|by left].
      by rewrite insert_empty.
  - intros [= <-]. simpl. split; [|by left].
    by rewrite insert_empty.
Qed.

(** C4 (as amended): the returned store is the input store with the record
    under the settled name replaced by the single entry
    [{"image/png": b64}]; every other key keeps its record. *)
Theorem buildAttachment_frame (fuel : nat) (b64 : string) (cell : NotebookCell)
    (fn ft : string) (starting : option (gmap string (list (string * string))))
    (a : Attachment) :
  buildAttachment fuel b64 cell fn ft starting = Returned a ->
  updatedStore a !! filename a = Some [("image/png", b64)]
  /\ forall k, k <> filename a -> updatedStore a !! k = inputStore cell !! k.
Proof.
  intros H. destruct (namer_returned _ _ _ _ _ _ _ H) as [-> _]. split.
  - by rewrite lookup_insert_eq.
  - intros k Hk. by rewrite lookup_insert_ne.
Qed.

Lemma buildAttachment_frame_witness :
  namer 2 "Y" (cellWithStore storeX) "img" ".png"
    = Returned
        {| metadata := cellMetadata (cellWithStore storeXY);
           filename := "img-2.png" |}
  /\ storeXY !! "img-2.png" = Some [("image/png", "Y")]
  /\ forall k, k <> "img-2.png" -> storeXY !! k = storeX !! k.
Proof.
  assert (H : namer 2 "Y" (cellWithStore storeX) "img" ".png"
              = Returned
                  {| metadata := cellMetadata (cellWithStore storeXY);
                     filename := "img-2.png" |})
    by (vm_compute; reflexivity).
  split; [exact H|].
  exact (buildAttachment_frame 2 "Y" (cellWithStore storeX) "img" ".png" _ _ H).
Defined.

(** C4 (as stated) fails on a reused name: the record found under
    ["img.png"] has a second entry, and the write drops it. *)
Lemma buildAttachment_frame_counterexample :
  exists a,
    namer 1 "X" (cellWithStore storeMulti) "img" ".png" = Returned a
    /\ filename a = "img.png"
    /\ ~ entriesPreserved (cellWithStore storeMulti) a.
Proof.
  eexists. split; [vm_compute; reflexivity|]. split; [reflexivity|].
  intros Hkeep.
  destruct (Hkeep "img.png" [("image/png", "X"); ("image/jpeg", "J")]
              ("image/jpeg", "J")) as (r' & Hr' & Hin).
  - vm_compute. reflexivity.
  - set_solver.
  - vm_compute in Hr'. injection Hr' as <-.
    apply list_elem_of_singleton in Hin. discriminate.
Qed.

(** The call as the caller makes it never returns when
    [filename + filetype] is the name of an inherited member and no key of
    the store. *)
Lemma namer_hangs (fuel : nat) (b64 : string) (cell : NotebookCell)
    (fn ft : string) (store : gmap string (list (string * string))) :
  cellAttachments (cellMetadata cell) = Some store ->
  store !! (fn +:+ ft) = None ->
  inheritedName (fn +:+ ft) = true ->
  namer fuel b64 cell fn ft = OutOfFuel.
Proof.
  intros Hcell Hnone Hinh. unfold namer, buildAttachment. rewrite Hcell.
  unfold cellAttachments in Hcell.
  destruct (custom (cellMetadata cell)) as [c|]; [|done].
  rewrite Hcell.
  by rewrite (loop_stuck_inherited b64 fn ft store fuel
                {| appendValue := 2; tempFilename := fn +:+ ft |} Hnone Hinh).
Qed.

(** C5 fails on the code: every record of the store
    [{"img.png": {"image/png": "X"}}] has an entry, yet with file name
    ["toStrin"] and file type ["g"] the call never returns.  ["toString"]
    is no key of the store, but [in] finds the inherited member, whose
    entries are empty, so every pass leaves the name as it is. *)
Theorem namer_hangs_on_inherited_name (fuel : nat) :
  (forall k r, inputStore (cellWithStore storeX) !! k = Some r -> r <> [])
  /\ storeX !! ("toStrin" +:+ "g") = None
  /\ namer fuel "Y" (cellWithStore storeX) "toStrin" "g" = OutOfFuel.
Proof.
  split; [|split].
  - intros k r. change (inputStore (cellWithStore storeX)) with storeX.
    unfold storeX. intros Hk.
    apply lookup_singleton_Some in Hk as [_ <-]. done.
  - reflexivity.
  - by apply (namer_hangs fuel "Y" (cellWithStore storeX) "toStrin" "g" storeX).
Qed.

(** C6 (as amended): on a record without entries the pass keeps the
    candidate name, and the update clause of the [for] statement still
    increments [appendValue]. *)
Theorem pass_on_empty_record (b64 fn ft : string)
    (starting : gmap string (list (string * string))) (s : LoopState) :
  starting !! tempFilename s = Some [] ->
  loopPass b64 fn ft starting s
  = Continue {| appendValue := (appendValue s + 1)%N;
                tempFilename := tempFilename s |}.
Proof. apply pass_no_entries. Qed.

Lemma pass_on_empty_record_witness :
  storeNoEntries !! "img.png" = Some []
  /\ loopPass "X" "img" ".png" storeNoEntries
       {| appendValue := 2; tempFilename := "img.png" |}
     = Continue {| appendValue := 3; tempFilename := "img.png" |}.
Proof.
  assert (H : storeNoEntries !! "img.png" = Some []) by reflexivity.
  split; [exact H|].
  exact (pass_on_empty_record "X" "img" ".png" storeNoEntries
           {| appendValue := 2; tempFilename := "img.png" |} H).
Defined.

(** C6 (as stated) fails: the pass over a record without entries does not
    leave the loop variables as they were; [appendValue] goes from 2 to 3. *)
Lemma pass_on_empty_record_counterexample :
  storeNoEntries !! "img.png" = Some []
  /\ loopPass "X" "img" ".png" storeNoEntries
       {| appendValue := 2; tempFilename := "img.png" |}
     <> Continue {| appendValue := 2; tempFilename := "img.png" |}.
Proof. split; [reflexivity|]. vm_compute. discriminate. Qed.

(** C7: the settled name is free in the input store, or names a record
    whose first payload is the new payload. *)
Theorem namer_settled (fuel : nat) (b64 : string) (cell : NotebookCell)
    (fn ft : string) (a : Attachment) :
  namer fuel b64 cell fn ft = Returned a ->
  inputStore cell !! filename a = None
  \/ exists mime rest,
       inputStore cell !! filename a = Some ((mime, b64) :: rest).
Proof.
  unfold namer. intros H.
  destruct (namer_returned _ _ _ _ _ _ _ H) as [_ [[Hnone _]|Hloop]].
  - left. unfold inputStore. by rewrite Hnone.
  - destruct Hloop as (store & Hstore & _ & Hloop).
    unfold inputStore. rewrite Hstore.
    exact (loop_settled _ _ _ _ _ _ _ Hloop).
Qed.

Lemma namer_settled_witness :
  namer 2 "Y" (cellWithStore storeX) "img" ".png"
    = Returned
        {| metadata := cellMetadata (cellWithStore storeXY);
           filename := "img-2.png" |}
  /\ (storeX !! "img-2.png" = None
      \/ exists mime rest, storeX !! "img-2.png" = Some ((mime, "Y") :: rest)).
Proof.
  assert (H : namer 2 "Y" (cellWithStore storeX) "img" ".png"
              = Returned
                  {| metadata := cellMetadata (cellWithStore storeXY);
                     filename := "img-2.png" |})
    by (vm_compute; reflexivity).
  split; [exact H|].
  exact (namer_settled 2 "Y" (cellWithStore storeX) "img" ".png" _ H).
Defined.

(** The same at the level of the call: a record whose first entry carries
    the new payload under [filename + filetype] makes the call settle on
    that name, whatever the entry's MIME type. *)
Lemma namer_reuses_first_name (fuel : nat) (b64 fn ft mime : string)
    (rest : list (string * string)) (cell : NotebookCell)
    (store : gmap string (list (string * string))) :
  cellAttachments (cellMetadata cell) = Some store ->
  store !! (fn +:+ ft) = Some ((mime, b64) :: rest) ->
  settledName (namer (S fuel) b64 cell fn ft) = Some (fn +:+ ft).
Proof.
  intros Hcell Hs.
  unfold namer, buildAttachment. rewrite Hcell.
  unfold cellAttachments in Hcell.
  destruct (custom (cellMetadata cell)) as [c|]; [|done].
  rewrite Hcell.
  change (collisionLoop (S fuel) b64 fn ft store
            {| appendValue := 2; tempFilename := fn +:+ ft |})
    with (match loopPass b64 fn ft store
                  {| appendValue := 2; tempFilename := fn +:+ ft |} with
          | Exit settled => Some settled
          | Continue s' => collisionLoop fuel b64 fn ft store s'
          end).
  by erewrite pass_same_payload by exact Hs.
Qed.

(** C10: when the first entry of the record under the candidate name
    carries the new payload, the pass exits and the loop settles on that
    name, whatever the entry's MIME type. *)
Theorem reuse_ignores_mime (fuel : nat) (b64 fn ft mime : string)
    (rest : list (string * string))
    (store : gmap string (list (string * string))) (s : LoopState) :
  store !! tempFilename s = Some ((mime, b64) :: rest) ->
  loopPass b64 fn ft store s = Exit (tempFilename s)
  /\ collisionLoop (S fuel) b64 fn ft store s = Some (tempFilename s).
Proof.
  intros Hs.
  assert (Hpass : loopPass b64 fn ft store s = Exit (tempFilename s))
    by (by eapply pass_same_payload).
  split; [exact Hpass|].
  by rewrite loop_S, Hpass.
Qed.

Lemma reuse_ignores_mime_witness :
  storeJpeg !! "img.png" = Some [("image/jpeg", "X")]
  /\ loopPass "X" "img" ".png" storeJpeg
       {| appendValue := 2; tempFilename := "img.png" |} = Exit "img.png"
  /\ collisionLoop 1 "X" "img" ".png" storeJpeg
       {| appendValue := 2; tempFilename := "img.png" |} = Some "img.png".
Proof.
  assert (H : storeJpeg !! "img.png" = Some [("image/jpeg", "X")]) by reflexivity.
  split; [exact H|].
  exact (reuse_ignores_mime 0 "X" "img" ".png" "image/jpeg" [] storeJpeg
           {| appendValue := 2; tempFilename := "img.png" |} H).
Defined.

End NamerFacts.
(* ===================================================================== *)
(** * Properties of the orchestration *)
(* ===================================================================== *)

Module ImagePasteFacts.
Import Notebook ImagePaste.

Local Open Scope nat_scope.

Lemma substring_one_nonempty (s : string) (n : nat) :
  n < String.length s -> isEmpty (String.substring n 1 s) = false.
Proof.
  revert n. induction s as [|ch s IH]; intros n Hn; [simpl in Hn; lia|].
  destruct n as [|n]; [reflexivity|].
  simpl. apply IH. simpl in Hn. lia.
Qed.

(** Without a ['.'], [lastIndexOf] gives [-1]; the two slices then cut the
    name before its last character, and both parts are non-empty as soon as
    the name has two characters. *)
Lemma slices_at_minus_one (givenFilename : string) :
  2 <= String.length givenFilename ->
  isEmpty (slice givenFilename 0 (-1)) = false
  /\ isEmpty (sliceFrom givenFilename (-1)) = false.
Proof.
  intros Hlen. split.
  - unfold slice, sliceIndex.
    destruct givenFilename as [|ch s]; [simpl in Hlen; lia|].
    change (0 <? 0)%Z with false. change (-1 <? 0)%Z with true. cbv iota.
    set (len := Z.of_nat (String.length (String ch s))).
    assert (Hl : (2 <= len)%Z) by (unfold len; lia).
    replace (Z.to_nat (Z.min 0 len)) with 0 by lia.
    replace (Z.to_nat (Z.max (Z.max (len + -1) 0 - Z.min 0 len) 0))
      with (S (Z.to_nat (len - 2))) by lia.
    reflexivity.
  - unfold sliceFrom, slice, sliceIndex.
    set (len := Z.of_nat (String.length givenFilename)).
    assert (Hl : (2 <= len)%Z) by (unfold len; lia).
    change (-1 <? 0)%Z with true. cbv iota.
    replace (len <? 0)%Z with false by (symmetry; apply Z.ltb_ge; lia).
    replace (Z.to_nat (Z.max (Z.min len len - Z.max (len + -1) 0) 0))
      with 1 by lia.
    apply substring_one_nonempty. lia.
Qed.

(** A name of two or more characters without ['.'] is not declined: once
    the owning cell is found, the function goes on to build an attachment. *)
Lemma no_extension_not_declined (fuel : nat)
    (notebookDocuments : list NotebookDocument)
    (dataTransfer : gmap string DataTransferItem) (document : TextDocument)
    (item : DataTransferItem) (file : DataTransferFile) (cell : NotebookCell) :
  dataTransfer !! "image/png" = Some item ->
  asFile item = Some file ->
  lastIndexOf (name file) "." = (-1)%Z ->
  2 <= String.length (name file) ->
  getCellFromCellDocument notebookDocuments document = Some cell ->
  buildImageMarkdown fuel notebookDocuments dataTransfer document <> Returned None.
Proof.
  intros Hitem Hfile Hdot Hlen Hcell.
  unfold buildImageMarkdown. rewrite Hitem, Hfile, Hdot, Hcell.
  destruct (slices_at_minus_one (name file) Hlen) as [H1 H2].
  rewrite H1, H2.
  destruct (name file) as [|ch s]; [simpl in Hlen; lia|]. simpl.
  by destruct (buildAttachment _ _ _ _ _ _).
Qed.

(** C3 fails on the code: the suggested name ["image"] has no ['.'], yet
    the function returns an edit, storing the attachment under ["image"]
    (split as file name ["imag"] and file type ["e"]). *)
Theorem buildImageMarkdown_no_extension (fuel : nat) :
  lastIndexOf "image" "." = (-1)%Z
  /\ slice "image" 0 (-1) = "imag"
  /\ sliceFrom "image" (-1) = "e"
  /\ exists result,
       buildImageMarkdown fuel [freshNotebook] transferNoDot markdownDocument
         = Returned (Some result)
       /\ snippet result
          = [Text "!["; Placeholder "image"; Text "](attachment:image)"]
       /\ cellAttachments (editMetadata (edit result))
          = Some {[ "image" := [("image/png", "iVBORw==")] ]}.
Proof.
  repeat split; [reflexivity..|].
  eexists. split; [vm_compute; reflexivity|].
  split; vm_compute; reflexivity.
Qed.

End ImagePasteFacts.

(* ===================================================================== *)
(** * Further properties of the encoder *)
(* ===================================================================== *)

Module EncoderMore.
Import Base64 Base64Facts Vocabulary.

Local Open Scope nat_scope.

Lemma encodeBase64_dictionaryOf (buffer : list byte) (padded urlSafe : bool) :
  encodeBase64 buffer padded urlSafe =
  encodeGroups (dictionaryOf urlSafe) padded buffer.
Proof. apply encodeBase64_groups. Qed.

Lemma encodeGroups_cons3 (d : string) (padded : bool) (a b c : byte)
    (rest : list byte) :
  encodeGroups d padded (a :: b :: c :: rest) =
  fullGroup d (byteZ a) (byteZ b) (byteZ c) +:+ encodeGroups d padded rest.
Proof. reflexivity. Qed.

(** ** Encoding in pieces *)

Lemma encodeGroups_app (d : string) (padded : bool) (front back : list byte) :
  length front mod 3 = 0 ->
  encodeGroups d false front +:+ encodeGroups d padded back =
  encodeGroups d padded (front ++ back).
Proof.
  induction front as [|a|a b|a b c rest IH] using list_ind3; intros Hlen.
  - reflexivity.
  - discriminate.
  - discriminate.
  - change ((a :: b :: c :: rest) ++ back) with (a :: b :: c :: rest ++ back).
    rewrite !encodeGroups_cons3, append_assoc. f_equal. apply IH.
    change (length (a :: b :: c :: rest)) with (1 * 3 + length rest) in Hlen.
    rewrite Nat.add_comm, Nat.Div0.mod_add in Hlen. exact Hlen.
Qed.

(** X1: a buffer can be encoded in pieces.  When the front piece has a
    multiple of three bytes, its unpadded encoding followed by the encoding
    of the rest is the encoding of the whole. *)
Theorem encodeBase64_app (front back : list byte) (padded urlSafe : bool) :
  length front mod 3 = 0 ->
  encodeBase64 (front ++ back) padded urlSafe =
  encodeBase64 front false urlSafe +:+ encodeBase64 back padded urlSafe.
Proof.
  intros Hlen. rewrite !encodeBase64_dictionaryOf.
  symmetry. by apply encodeGroups_app.
Qed.

Lemma encodeBase64_app_witness :
  length [x89; x50; x4e] mod 3 = 0
  /\ encodeBase64 ([x89; x50; x4e] ++ [x47]) true false =
     encodeBase64 [x89; x50; x4e] false false +:+ encodeBase64 [x47] true false.
Proof.
  assert (H : length [x89; x50; x4e] mod 3 = 0) by reflexivity.
  split; [exact H|].
  exact (encodeBase64_app [x89; x50; x4e] [x47] true false H).
Defined.

(** ** Padding *)

Lemma encodeGroups_padding (d : string) (buffer : list byte) :
  encodeGroups d true buffer =
  encodeGroups d false buffer +:+ padding (length buffer).
Proof.
  induction buffer as [|a|a b|a b c rest IH] using list_ind3.
  - reflexivity.
  - change (encodeGroups d ?p [a]) with (tailGroup d p [a]).
    unfold tailGroup. by rewrite append_nil_r.
  - change (encodeGroups d ?p [a; b]) with (tailGroup d p [a; b]).
    unfold tailGroup. by rewrite append_nil_r.
  - rewrite !encodeGroups_cons3, IH, append_assoc.
    do 2 f_equal. unfold padding.
    change (length (a :: b :: c :: rest)) with (1 * 3 + length rest).
    by rewrite (Nat.add_comm (1 * 3)), Nat.Div0.mod_add.
Qed.

(** X2: padding only appends.  The padded output is the unpadded output
    followed by no, two or one ['='], for a byte count that is 0, 1 or 2
    modulo 3. *)
Theorem encodeBase64_padding (buffer : list byte) (urlSafe : bool) :
  encodeBase64 buffer true urlSafe =
  encodeBase64 buffer false urlSafe +:+ padding (length buffer).
Proof. rewrite !encodeBase64_dictionaryOf. apply encodeGroups_padding. Qed.

(** ** The characters of the output *)

Lemma alphabetCheck_all (urlSafe : bool) :
  forallb (alphabetCheck urlSafe) (map Z.of_nat (seq 0 64)) = true.
Proof. destruct urlSafe; vm_compute; reflexivity. Qed.

Lemma charAt_alphabet (urlSafe : bool) (k : Z) :
  (0 <= k < 64)%Z ->
  exists ch,
    charAt (dictionaryOf urlSafe) k = String ch EmptyString
    /\ occurs ch (dictionaryOf urlSafe) = true
    /\ isPad ch = false.
Proof.
  intros Hk.
  pose proof (alphabetCheck_all urlSafe) as Hall.
  rewrite forallb_forall in Hall.
  assert (Hin : In k (map Z.of_nat (seq 0 64))).
  { apply in_map_iff. exists (Z.to_nat k). split; [lia|]. apply in_seq. lia. }
  apply Hall in Hin. unfold alphabetCheck in Hin. unfold charAt.
  destruct (dictAt (dictionaryOf urlSafe) k) as [ch|]; [|discriminate].
  apply andb_prop in Hin as [H1 H2]. apply negb_true_iff in H2.
  by exists ch.
Qed.

Lemma forallChars_append (p : ascii -> bool) (s t : string) :
  forallChars p (s +:+ t) = forallChars p s && forallChars p t.
Proof.
  induction s as [|ch s IH]; [reflexivity|].
  rewrite append_cons. simpl. by rewrite IH, andb_assoc.
Qed.

Lemma forallChars_impl (p q : ascii -> bool) (s : string) :
  (forall ch, p ch = true -> q ch = true) ->
  forallChars p s = true -> forallChars q s = true.
Proof.
  intros Hpq. induction s as [|ch s IH]; [done|]. simpl.
  intros [H1 H2]%andb_prop. by rewrite (Hpq _ H1), IH.
Qed.

Lemma forallChars_get (p : ascii -> bool) (s : string) (i : nat) (ch : ascii) :
  forallChars p s = true -> String.get i s = Some ch -> p ch = true.
Proof.
  revert i. induction s as [|ch' s IH]; intros i Hall Hget; [done|].
  simpl in Hall. apply andb_prop in Hall as [H1 H2].
  destruct i as [|i]; simpl in Hget.
  - by injection Hget as <-.
  - by eapply IH.
Qed.

(** Any property of the 64 dictionary characters (and of ['='] when the
    output is padded) holds of every character of the output. *)
Lemma encodeGroups_forallChars (p : ascii -> bool) (urlSafe padded : bool)
    (buffer : list byte) :
  (forall ch, occurs ch (dictionaryOf urlSafe) = true -> p ch = true) ->
  (padded = true -> p "="%char = true) ->
  forallChars p (encodeGroups (dictionaryOf urlSafe) padded buffer) = true.
Proof.
  intros Hdict Hpad.
  assert (Hchar : forall k, (0 <= k < 64)%Z ->
            forallChars p (charAt (dictionaryOf urlSafe) k) = true).
  { intros k Hk. destruct (charAt_alphabet urlSafe k Hk) as (ch & -> & Hocc & _).
    simpl. by rewrite (Hdict _ Hocc). }
  assert (Hpadding : forall pad : string,
            pad = "=" \/ pad = "==" ->
            forallChars p (if padded then pad else EmptyString) = true).
  { intros pad Hp. destruct padded; [|done].
    destruct Hp as [-> | ->]; simpl; by rewrite Hpad. }
  induction buffer as [|a|a b|a b c rest IH] using list_ind3.
  - done.
  - change (encodeGroups ?d padded [a]) with (tailGroup d padded [a]).
    unfold tailGroup. rewrite !forallChars_append.
    rewrite !Hchar by sextet_range. rewrite Hpadding by auto. done.
  - change (encodeGroups ?d padded [a; b]) with (tailGroup d padded [a; b]).
    unfold tailGroup. rewrite !forallChars_append.
    rewrite !Hchar by sextet_range. rewrite Hpadding by auto. done.
  - rewrite encodeGroups_cons3. unfold fullGroup.
    rewrite !forallChars_append.
    rewrite !Hchar by sextet_range. by rewrite IH.
Qed.

(** X3: the output is made of dictionary characters only.  Every
    character of the unpadded output is one of the 64 characters of the
    selected alphabet (so none is ['=']), and every character of the padded
    output is one of those or ['=']. *)
Theorem encodeBase64_alphabet (buffer : list byte) (urlSafe : bool)
    (i : nat) (ch : ascii) :
  (String.get i (encodeBase64 buffer false urlSafe) = Some ch ->
   occurs ch (dictionaryOf urlSafe) = true /\ ch <> "="%char)
  /\ (String.get i (encodeBase64 buffer true urlSafe) = Some ch ->
      occurs ch (dictionaryOf urlSafe) = true \/ ch = "="%char).
Proof.
  rewrite !encodeBase64_dictionaryOf. split; intros Hget.
  - assert (Hall : forallChars
                     (fun ch => occurs ch (dictionaryOf urlSafe)
                                && negb (Ascii.eqb ch "="))
                     (encodeGroups (dictionaryOf urlSafe) false buffer) = true).
    { apply encodeGroups_forallChars; [|discriminate].
      intros ch' Hocc. rewrite Hocc. simpl.
      destruct (Ascii.eqb_spec ch' "="); [|done]. subst ch'.
      by destruct urlSafe. }
    pose proof (forallChars_get _ _ _ _ Hall Hget) as H. cbv beta in H.
    apply andb_prop in H as [H1 H2]. split; [done|].
    by apply negb_true_iff, Ascii.eqb_neq in H2.
  - assert (Hall : forallChars
                     (fun ch => occurs ch (dictionaryOf urlSafe)
                                || Ascii.eqb ch "=")
                     (encodeGroups (dictionaryOf urlSafe) true buffer) = true).
    { apply encodeGroups_forallChars.
      - intros ch' Hocc. by rewrite Hocc.
      - intros _. by rewrite Ascii.eqb_refl, orb_true_r. }
    pose proof (forallChars_get _ _ _ _ Hall Hget) as H. cbv beta in H.
    apply orb_prop in H as [H1|H2]; [by left|].
    right. by apply Ascii.eqb_eq.
Qed.

Lemma encodeBase64_alphabet_witness :
  String.get 0 (encodeBase64 [x89; x50] false true) = Some "i"%char
  /\ occurs "i" (dictionaryOf true) = true /\ "i"%char <> "="%char.
Proof.
  assert (H : String.get 0 (encodeBase64 [x89; x50] false true) = Some "i"%char)
    by reflexivity.
  split; [exact H|].
  exact (proj1 (encodeBase64_alphabet [x89; x50] true 0 "i"%char) H).
Defined.


(** ** Distinct buffers have distinct encodings *)

Lemma padded_standard_inj (b1 b2 : list byte) :
  encodeGroups base64Alphabet true b1 = encodeGroups base64Alphabet true b2 ->
  b1 = b2.
Proof.
  intros H. apply (f_equal decodeBase64Standard) in H.
  rewrite !decode_encodeGroups in H. by injection H.
Qed.

Lemma urlSafeChar_inj (c1 c2 : ascii) :
  standardChar c1 = true -> standardChar c2 = true ->
  urlSafeChar c1 = urlSafeChar c2 -> c1 = c2.
Proof.
  unfold urlSafeChar. intros H1 H2.
  destruct (Ascii.eqb_spec c1 "+") as [->|N1];
    destruct (Ascii.eqb_spec c2 "+") as [->|N2]; try done.
  - destruct (Ascii.eqb_spec c2 "/") as [->|N3]; [discriminate|].
    intros <-. discriminate.
  - destruct (Ascii.eqb_spec c1 "/") as [->|N3]; [discriminate|].
    intros ->. discriminate.
  - destruct (Ascii.eqb_spec c1 "/") as [->|N3];
      destruct (Ascii.eqb_spec c2 "/") as [->|N4]; try done.
    + intros <-. discriminate.
    + intros ->. discriminate.
Qed.

Lemma mapString_urlSafe_inj (s1 s2 : string) :
  forallChars standardChar s1 = true -> forallChars standardChar s2 = true ->
  mapString urlSafeChar s1 = mapString urlSafeChar s2 -> s1 = s2.
Proof.
  revert s2. induction s1 as [|c1 s1 IH]; intros [|c2 s2] H1 H2 Heq;
    try done.
  simpl in H1, H2, Heq.
  apply andb_prop in H1 as [Hc1 H1]. apply andb_prop in H2 as [Hc2 H2].
  injection Heq as Hc Hs.
  f_equal; [by apply urlSafeChar_inj|by apply IH].
Qed.

Lemma standard_output_chars (padded : bool) (buffer : list byte) :
  forallChars standardChar (encodeGroups base64Alphabet padded buffer) = true.
Proof.
  apply (encodeGroups_forallChars standardChar false padded buffer).
  - intros ch Hocc. unfold standardChar.
    change (dictionaryOf false) with base64Alphabet in Hocc. by rewrite Hocc.
  - reflexivity.
Qed.

(** The length of the unpadded output tells the byte count modulo 3. *)
Lemma unpadded_length_mod4 (d : bool) (buffer : list byte) :
  String.length (encodeGroups (dictionaryOf d) false buffer) mod 4 =
  if (length buffer mod 3 =? 0) then 0 else S (length buffer mod 3).
Proof.
  pose proof (encodeGroups_length d false buffer) as H.
  change (if d then base64UrlSafeAlphabet else base64Alphabet)
    with (dictionaryOf d) in H.
  rewrite H, Nat.add_comm, Nat.Div0.mod_add.
  pose proof (Nat.mod_upper_bound (length buffer) 3 ltac:(lia)) as Hr.
  destruct (length buffer mod 3) as [|[|[|r]]]; [reflexivity..|lia].
Qed.

Lemma unpadded_same_padding (d : bool) (b1 b2 : list byte) :
  encodeGroups (dictionaryOf d) false b1 = encodeGroups (dictionaryOf d) false b2 ->
  padding (length b1) = padding (length b2).
Proof.
  intros H. apply (f_equal (fun s => String.length s mod 4)) in H.
  rewrite !unpadded_length_mod4 in H. unfold padding.
  pose proof (Nat.mod_upper_bound (length b1) 3 ltac:(lia)) as Hr1.
  pose proof (Nat.mod_upper_bound (length b2) 3 ltac:(lia)) as Hr2.
  destruct (length b1 mod 3) as [|[|[|r1]]];
    destruct (length b2 mod 3) as [|[|[|r2]]];
    try reflexivity; try discriminate; lia.
Qed.

Lemma encodeGroups_inj (padded urlSafe : bool) (b1 b2 : list byte) :
  encodeGroups (dictionaryOf urlSafe) padded b1
  = encodeGroups (dictionaryOf urlSafe) padded b2 ->
  b1 = b2.
Proof.
  intros H.
  assert (Hpadded : encodeGroups (dictionaryOf urlSafe) true b1
                    = encodeGroups (dictionaryOf urlSafe) true b2).
  { destruct padded; [done|].
    rewrite !encodeGroups_padding, H. f_equal.
    by apply (unpadded_same_padding urlSafe). }
  clear H. apply padded_standard_inj.
  destruct urlSafe; [|done].
  destruct (urlSafeImage_groups true b1) as [E1 _].
  destruct (urlSafeImage_groups true b2) as [E2 _].
  change (dictionaryOf true) with base64UrlSafeAlphabet in Hpadded.
  rewrite E1, E2 in Hpadded.
  apply mapString_urlSafe_inj in Hpadded; [done|apply standard_output_chars..].
Qed.

(** X4: the encoder is injective for every choice of its two flags: equal
    outputs come from equal buffers, so a stored payload identifies the
    image bytes. *)
Theorem encodeBase64_inj (padded urlSafe : bool) (b1 b2 : list byte) :
  encodeBase64 b1 padded urlSafe = encodeBase64 b2 padded urlSafe -> b1 = b2.
Proof. rewrite !encodeBase64_dictionaryOf. apply encodeGroups_inj. Qed.

Lemma encodeBase64_inj_witness :
  encodeBase64 [x89; x50] false true = encodeBase64 [x89; x50] false true
  /\ [x89; x50] = [x89; x50].
Proof.
  assert (H : encodeBase64 [x89; x50] false true
              = encodeBase64 [x89; x50] false true) by reflexivity.
  split; [exact H|].
  exact (encodeBase64_inj false true [x89; x50] [x89; x50] H).
Defined.

End EncoderMore.

(* ===================================================================== *)
(** * Further properties of the cell lookup and the attachment namer *)
(* ===================================================================== *)

Module NamerMore.
Import Notebook ImagePaste Vocabulary.
Import Base64Facts NamerFacts.

Local Open Scope nat_scope.

(** ** [getCellFromCellDocument] *)

Lemma findCell_Some (cells : list NotebookCell) (doc : TextDocument)
    (cell : NotebookCell) :
  findCell cells doc = Some cell ->
  In cell cells /\ documentId (cellDocument cell) = documentId doc.
Proof.
  induction cells as [|c cells IH]; [done|]. simpl.
  destruct (sameDocument (cellDocument c) doc) eqn:Hsame.
  - intros [= <-]. split; [by left|]. by apply Nat.eqb_eq.
  - intros H. destruct (IH H) as [Hin Hid]. split; [by right|done].
Qed.

Lemma findCell_None (cells : list NotebookCell) (doc : TextDocument) :
  findCell cells doc = None <->
  forall cell, In cell cells -> documentId (cellDocument cell) <> documentId doc.
Proof.
  induction cells as [|c cells IH]; simpl.
  - split; [intros _ cell []|done].
  - destruct (sameDocument (cellDocument c) doc) eqn:Hsame.
    + apply Nat.eqb_eq in Hsame. split; [done|].
      intros H. by destruct (H c (or_introl eq_refl)).
    + apply Nat.eqb_neq in Hsame. rewrite IH. split.
      * intros H cell [<-|Hin]; [done|by apply H].
      * intros H cell Hin. apply H. by right.
Qed.

(** X5: a cell that is found really is the owner.  It belongs to an open
    notebook whose URI path is the document's, and its document is the
    document asked for. *)
Theorem getCellFromCellDocument_sound (notebookDocuments : list NotebookDocument)
    (doc : TextDocument) (cell : NotebookCell) :
  getCellFromCellDocument notebookDocuments doc = Some cell ->
  exists notebook,
    In notebook notebookDocuments
    /\ notebookUriPath notebook = documentUriPath doc
    /\ In cell (getCells notebook)
    /\ documentId (cellDocument cell) = documentId doc.
Proof.
  induction notebookDocuments as [|nb nbs IH]; [done|]. simpl.
  destruct (String.eqb_spec (notebookUriPath nb) (documentUriPath doc)) as [Hp|Hp].
  - destruct (findCell (getCells nb) doc) as [found|] eqn:Hfind.
    + intros [= <-]. apply findCell_Some in Hfind as [Hin Hid].
      exists nb. repeat split; [by left|done..].
    + intros H. destruct (IH H) as (nb' & Hin & Hrest).
      exists nb'. split; [by right|done].
  - intros H. destruct (IH H) as (nb' & Hin & Hrest).
    exists nb'. split; [by right|done].
Qed.

Lemma getCellFromCellDocument_sound_witness :
  getCellFromCellDocument [freshNotebook; shotNotebook] shotDocument = Some shotCell
  /\ exists notebook,
       In notebook [freshNotebook; shotNotebook]
       /\ notebookUriPath notebook = documentUriPath shotDocument
       /\ In shotCell (getCells notebook)
       /\ documentId (cellDocument shotCell) = documentId shotDocument.
Proof.
  assert (H : getCellFromCellDocument [freshNotebook; shotNotebook] shotDocument
              = Some shotCell) by reflexivity.
  split; [exact H|].
  exact (getCellFromCellDocument_sound _ _ _ H).
Defined.

(** X6: the lookup fails exactly when no open notebook with the document's
    URI path has a cell for the document; a notebook with the right path but
    without the cell does not stop the search. *)
Theorem getCellFromCellDocument_None (notebookDocuments : list NotebookDocument)
    (doc : TextDocument) :
  getCellFromCellDocument notebookDocuments doc = None <->
  forall notebook cell,
    In notebook notebookDocuments ->
    notebookUriPath notebook = documentUriPath doc ->
    In cell (getCells notebook) ->
    documentId (cellDocument cell) <> documentId doc.
Proof.
  induction notebookDocuments as [|nb nbs IH]; simpl.
  - split; [intros _ nb cell []|done].
  - destruct (String.eqb_spec (notebookUriPath nb) (documentUriPath doc)) as [Hp|Hp].
    + destruct (findCell (getCells nb) doc) as [found|] eqn:Hfind.
      * split; [done|]. intros H.
        apply findCell_Some in Hfind as [Hin Hid].
        by destruct (H nb found (or_introl eq_refl) Hp Hin).
      * rewrite IH. split.
        -- intros H nb' cell [<-|Hin] Hpath Hcell; [|by eapply H].
           by apply (proj1 (findCell_None _ _) Hfind).
        -- intros H nb' cell Hin. apply H. by right.
    + rewrite IH. split.
      * intros H nb' cell [<-|Hin] Hpath Hcell; [done|by eapply H].
      * intros H nb' cell Hin. apply H. by right.
Qed.


(** ** [buildAttachment]: a cell without an attachments map *)

(** X7: when the cell has no [custom] metadata or no attachments map, the
    call returns at once, whatever the fifth argument and however little
    fuel: the name is [filename + filetype] and the new store holds that
    one entry only. *)
Theorem buildAttachment_first_attachment (fuel : nat) (b64 : string)
    (cell : NotebookCell) (fn ft : string)
    (starting : option (gmap string (list (string * string)))) :
  cellAttachments (cellMetadata cell) = None ->
  exists a,
    buildAttachment fuel b64 cell fn ft starting = Returned a
    /\ filename a = fn +:+ ft
    /\ updatedStore a = {[ fn +:+ ft := [("image/png", b64)] ]}.
Proof.
  unfold buildAttachment, cellAttachments.
  destruct (custom (cellMetadata cell)) as [c|].
  - intros ->. eexists. split; [reflexivity|]. by split.
  - intros _. eexists. split; [reflexivity|]. by split.
Qed.

Lemma buildAttachment_first_attachment_witness :
  cellAttachments (cellMetadata (cellOf {| custom := None; metadataRest := ∅ |}))
    = None
  /\ exists a,
       buildAttachment 0 "X" (cellOf {| custom := None; metadataRest := ∅ |})
         "img" ".png" None = Returned a
       /\ filename a = "img" +:+ ".png"
       /\ updatedStore a = {[ "img" +:+ ".png" := [("image/png", "X")] ]}.
Proof.
  assert (H : cellAttachments
                (cellMetadata (cellOf {| custom := None; metadataRest := ∅ |}))
              = None) by reflexivity.
  split; [exact H|].
  exact (buildAttachment_first_attachment 0 "X" _ "img" ".png" None H).
Defined.

(** ** [buildAttachment]: what it leaves alone *)

(** X8: the other metadata is carried over.  The returned metadata always
    has an attachments map, keeps every key of the cell's metadata other
    than [custom], and keeps every key of [custom] other than
    [attachments]. *)
Theorem buildAttachment_other_keys (fuel : nat) (b64 : string)
    (cell : NotebookCell) (fn ft : string)
    (starting : option (gmap string (list (string * string))))
    (a : Attachment) :
  buildAttachment fuel b64 cell fn ft starting = Returned a ->
  metadataRest (metadata a) = metadataRest (cellMetadata cell)
  /\ exists c',
       custom (metadata a) = Some c'
       /\ is_Some (attachments c')
       /\ forall c, custom (cellMetadata cell) = Some c ->
                    customRest c' = customRest c.
Proof.
  unfold buildAttachment.
  destruct (custom (cellMetadata cell)) as [c|].
  - destruct (attachments c) as [existing|].
    + destruct starting as [store|]; [|done].
      destruct (collisionLoop _ _ _ _ _ _) as [settled|]; [|done].
      intros [= <-]. simpl. split; [done|].
      eexists. split; [done|]. split; [done|]. by intros ? [= <-].
    + intros [= <-]. simpl. split; [done|].
      eexists. split; [done|]. split; [done|]. by intros ? [= <-].
  - intros [= <-]. simpl. split; [done|].
    eexists. split; [done|]. split; [done|]. done.
Qed.

Lemma buildAttachment_other_keys_witness :
  namer 1 "AAAA" shotCell "shot" ".png"
    = Returned {| metadata := cellMetadata shotCell; filename := "shot.png" |}
  /\ metadataRest (cellMetadata shotCell) = metadataRest (cellMetadata shotCell)
  /\ exists c',
       custom (cellMetadata shotCell) = Some c'
       /\ is_Some (attachments c')
       /\ forall c, custom (cellMetadata shotCell) = Some c ->
                    customRest c' = customRest c.
Proof.
  assert (H : namer 1 "AAAA" shotCell "shot" ".png"
              = Returned {| metadata := cellMetadata shotCell;
                            filename := "shot.png" |})
    by (vm_compute; reflexivity).
  split; [exact H|].
  exact (buildAttachment_other_keys 1 "AAAA" shotCell "shot" ".png" _ _ H).
Defined.

(** ** [buildAttachment]: when it returns, when it never does *)

(** The store a returned call hands back. *)
Lemma buildAttachment_store (fuel : nat) (b64 : string)
    (cell : NotebookCell) (fn ft : string)
    (starting : option (gmap string (list (string * string))))
    (a : Attachment) :
  buildAttachment fuel b64 cell fn ft starting = Returned a ->
  cellAttachments (metadata a)
  = Some (<[ filename a := [("image/png", b64)] ]> (inputStore cell)).
Proof.
  unfold buildAttachment, inputStore, cellAttachments.
  destruct (custom (cellMetadata cell)) as [c|].
  - destruct (attachments c) as [existing|].
    + destruct starting as [store|]; [|done].
      destruct (collisionLoop _ _ _ _ _ _) as [settled|]; [|done].
      by intros [= <-].
    + intros [= <-]. simpl. by rewrite insert_empty.
  - intros [= <-]. simpl. by rewrite insert_empty.
Qed.

(** With entries in every record, and with [filename + filetype] a key of
    the store or not the name of an inherited member, the call as the
    caller makes it returns, given fuel for [size store + 2] passes. *)
Lemma namer_returns (b64 : string) (cell : NotebookCell) (fn ft : string) :
  (forall k r, inputStore cell !! k = Some r -> r <> []) ->
  (inputStore cell !! (fn +:+ ft) = None -> inheritedName (fn +:+ ft) = false) ->
  exists a,
    forall fuel, size (inputStore cell) + 2 <= fuel ->
      namer fuel b64 cell fn ft = Returned a.
Proof.
  unfold namer, buildAttachment, inputStore, cellAttachments.
  destruct (custom (cellMetadata cell)) as [c|]; [|eauto].
  destruct (attachments c) as [existing|]; [|eauto].
  intros Hne Hplain.
  destruct (loop_exits b64 fn ft existing Hne Hplain) as [settled Hsettled].
  eexists. intros fuel Hfuel. by rewrite (Hsettled fuel Hfuel).
Qed.

(** X10: a record without entries under [filename + filetype] makes the
    call loop forever: whatever the fuel, it has not returned. *)
Theorem namer_never_returns (fuel : nat) (b64 : string) (cell : NotebookCell)
    (fn ft : string) (store : gmap string (list (string * string))) :
  cellAttachments (cellMetadata cell) = Some store ->
  store !! (fn +:+ ft) = Some [] ->
  namer fuel b64 cell fn ft = OutOfFuel.
Proof.
  intros Hcell Hempty. unfold namer, buildAttachment. rewrite Hcell.
  unfold cellAttachments in Hcell.
  destruct (custom (cellMetadata cell)) as [c|]; [|done].
  rewrite Hcell.
  by rewrite (loop_stuck b64 fn ft store fuel
                {| appendValue := 2; tempFilename := fn +:+ ft |} Hempty).
Qed.

Lemma namer_never_returns_witness :
  cellAttachments (cellMetadata (cellWithStore storeNoEntries)) = Some storeNoEntries
  /\ storeNoEntries !! ("img" +:+ ".png") = Some []
  /\ namer 1000 "X" (cellWithStore storeNoEntries) "img" ".png" = OutOfFuel.
Proof.
  assert (H1 : cellAttachments (cellMetadata (cellWithStore storeNoEntries))
               = Some storeNoEntries) by reflexivity.
  assert (H2 : storeNoEntries !! ("img" +:+ ".png") = Some []) by reflexivity.
  split; [exact H1|]. split; [exact H2|].
  exact (namer_never_returns 1000 "X" _ "img" ".png" storeNoEntries H1 H2).
Defined.


(** X22: the call returns when the names are the store's own.  With an
    entry in every stored record, and [filename + filetype] either a key of
    the store or not the name of a member every object inherits, the call
    returns within [size store + 2] passes of the loop. *)
Theorem namer_terminates_on_own_names (b64 : string) (cell : NotebookCell)
    (fn ft : string) :
  (forall k r, inputStore cell !! k = Some r -> r <> []) ->
  (inputStore cell !! (fn +:+ ft) = None -> inheritedName (fn +:+ ft) = false) ->
  exists a,
    forall fuel, size (inputStore cell) + 2 <= fuel ->
      namer fuel b64 cell fn ft = Returned a.
Proof. apply namer_returns. Qed.

Lemma namer_terminates_on_own_names_witness :
  (forall k r, inputStore (cellWithStore storeXY) !! k = Some r -> r <> [])
  /\ (inputStore (cellWithStore storeXY) !! ("img" +:+ ".png") = None ->
      inheritedName ("img" +:+ ".png") = false)
  /\ exists a,
       forall fuel, size (inputStore (cellWithStore storeXY)) + 2 <= fuel ->
         namer fuel "Z" (cellWithStore storeXY) "img" ".png" = Returned a.
Proof.
  assert (H1 : forall k r,
             inputStore (cellWithStore storeXY) !! k = Some r -> r <> []).
  { intros k r. change (inputStore (cellWithStore storeXY)) with storeXY.
    unfold storeXY, storeX. intros Hk.
    apply lookup_insert_Some in Hk as [[_ <-]|[_ Hk]]; [done|].
    apply lookup_singleton_Some in Hk as [_ <-]. done. }
  assert (H2 : inputStore (cellWithStore storeXY) !! ("img" +:+ ".png") = None ->
               inheritedName ("img" +:+ ".png") = false) by reflexivity.
  split; [exact H1|]. split; [exact H2|].
  exact (namer_terminates_on_own_names "Z" (cellWithStore storeXY) "img" ".png"
           H1 H2).
Defined.

(** X23: an inherited name that is no key of the store makes the call loop
    forever.  When [filename + filetype] is ["constructor"], ["toString"]
    or another name every object inherits, and the store has no such key,
    [in] holds, the inherited member has no entries, and the candidate
    never changes: whatever the fuel, the call has not returned. *)
Theorem namer_never_returns_inherited (fuel : nat) (b64 : string)
    (cell : NotebookCell) (fn ft : string)
    (store : gmap string (list (string * string))) :
  cellAttachments (cellMetadata cell) = Some store ->
  store !! (fn +:+ ft) = None ->
  inheritedName (fn +:+ ft) = true ->
  namer fuel b64 cell fn ft = OutOfFuel.
Proof. apply namer_hangs. Qed.

Lemma namer_never_returns_inherited_witness :
  cellAttachments (cellMetadata (cellWithStore storeXY)) = Some storeXY
  /\ storeXY !! ("constructo" +:+ "r") = None
  /\ inheritedName ("constructo" +:+ "r") = true
  /\ namer 1000 "Z" (cellWithStore storeXY) "constructo" "r" = OutOfFuel.
Proof.
  assert (H1 : cellAttachments (cellMetadata (cellWithStore storeXY))
               = Some storeXY) by reflexivity.
  assert (H2 : storeXY !! ("constructo" +:+ "r") = None) by reflexivity.
  assert (H3 : inheritedName ("constructo" +:+ "r") = true) by reflexivity.
  split; [exact H1|]. split; [exact H2|]. split; [exact H3|].
  exact (namer_never_returns_inherited 1000 "Z" (cellWithStore storeXY)
           "constructo" "r" storeXY H1 H2 H3).
Defined.

(** ** The names the loop passes over *)

Section Visits.
Variables (b64 fn ft : string).
Variable store : gmap string (list (string * string)).

(** A loop that exits has renamed only on occupied names: its result is
    the name it started on, or a suffixed name reached after finding the
    start name and every earlier suffixed name occupied. *)
Lemma loop_visits (fuel : nat) (s : LoopState) (settled : string) :
  collisionLoop fuel b64 fn ft store s = Some settled ->
  settled = tempFilename s
  \/ (occupied b64 store (tempFilename s)
      /\ exists k,
           (appendValue s <= k)%N
           /\ settled = suffixed fn k ft
           /\ forall j, (appendValue s <= j < k)%N ->
                        occupied b64 store (suffixed fn j ft)).
Proof.
  revert s. induction fuel as [|fuel IH]; intros s H; [done|].
  rewrite loop_S in H.
  destruct (store !! tempFilename s) as [[|[mime payload] rest]|] eqn:Hs.
  - rewrite (pass_no_entries _ _ _ _ _ Hs) in H.
    by rewrite loop_stuck in H.
  - destruct (decide (payload = b64)) as [->|Hne].
    + rewrite (pass_same_payload _ _ _ _ _ _ _ Hs) in H.
      injection H as <-. by left.
    + rewrite (pass_other_payload _ _ _ _ _ _ _ _ Hs Hne) in H.
      right. split; [by exists mime, payload, rest|].
      apply IH in H. cbn [appendValue tempFilename] in H.
      destruct H as [->|(Hocc & k & Hk & -> & Hall)].
      * exists (appendValue s). split; [lia|]. split; [done|]. intros j Hj. lia.
      * exists k. split; [lia|]. split; [done|]. intros j Hj.
        destruct (decide (j = appendValue s)) as [->|Hj']; [done|].
        apply Hall. lia.
  - destruct (inheritedName (tempFilename s)) eqn:Hi.
    + rewrite (pass_inherited _ _ _ _ _ Hs Hi) in H.
      by rewrite loop_stuck_inherited in H.
    + rewrite (pass_absent _ _ _ _ _ Hs Hi) in H. injection H as <-. by left.
Qed.

(** Pasting again: once the settled name carries the payload, the loop
    settles on it again. *)
Lemma loop_again (fuel : nat) (s : LoopState) (settled mime : string) :
  collisionLoop fuel b64 fn ft store s = Some settled ->
  collisionLoop fuel b64 fn ft (<[ settled := [(mime, b64)] ]> store) s
  = Some settled.
Proof.
  revert s. induction fuel as [|fuel IH]; intros s H; [done|].
  rewrite loop_S in *.
  destruct (decide (tempFilename s = settled)) as [Heq|Hne].
  - erewrite pass_same_payload; [by rewrite Heq|].
    rewrite Heq. apply lookup_insert_eq.
  - assert (Hpass : loopPass b64 fn ft (<[ settled := [(mime, b64)] ]> store) s
                    = loopPass b64 fn ft store s).
    { unfold loopPass, entriesOf. by rewrite lookup_insert_ne. }
    rewrite Hpass. destruct (loopPass b64 fn ft store s) as [n|s']; [done|].
    by apply IH.
Qed.

Lemma plain_not_suffixed (k : N) : fn +:+ ft <> suffixed fn k ft.
Proof.
  unfold suffixed. intros H. apply (f_equal String.length) in H.
  rewrite !length_append in H. simpl in H. lia.
Qed.

(** Distinct names inside a set of names take up room. *)
Lemma suffixed_room (m : nat) :
  forall names : gset string,
    (forall j, (2 <= j < 2 + N.of_nat m)%N -> suffixed fn j ft ∈ names) ->
    m <= size names.
Proof.
  induction m as [|m IH]; intros names Hin; [lia|].
  assert (Hlast : suffixed fn (2 + N.of_nat m) ft ∈ names) by (apply Hin; lia).
  specialize (IH (names ∖ {[ suffixed fn (2 + N.of_nat m) ft ]})).
  rewrite size_difference, size_singleton in IH by set_solver.
  assert (size names <> 0).
  { intros Hz. apply size_empty_inv in Hz. set_solver. }
  enough (m <= size names - 1) by lia.
  apply IH. intros j Hj. apply elem_of_difference. split; [apply Hin; lia|].
  rewrite elem_of_singleton. intros Heq. apply suffixed_inj in Heq. lia.
Qed.

Lemma visits_bound (k : N) :
  occupied b64 store (fn +:+ ft) ->
  (forall j, (2 <= j < k)%N -> occupied b64 store (suffixed fn j ft)) ->
  (2 <= k)%N ->
  (k <= N.of_nat (size store) + 1)%N.
Proof.
  intros Hplain Hall Hk.
  assert (Hdom : forall name, occupied b64 store name -> name ∈ dom store).
  { intros name (mime & payload & rest & Hs & _). apply elem_of_dom. by eexists. }
  pose proof (suffixed_room (N.to_nat k - 2) (dom store ∖ {[ fn +:+ ft ]})) as Hroom.
  rewrite size_difference, size_singleton, size_dom in Hroom
    by (apply singleton_subseteq_l, Hdom, Hplain).
  assert (size store <> 0).
  { intros Hz. apply map_size_empty_inv in Hz.
    destruct Hplain as (? & ? & ? & Hs & _). by rewrite Hz in Hs. }
  enough (N.to_nat k - 2 <= size store - 1) by lia.
  apply Hroom. intros j Hj. apply elem_of_difference. split.
  - apply Hdom, Hall. lia.
  - rewrite elem_of_singleton. intros Heq. symmetry in Heq.
    by apply plain_not_suffixed in Heq.
Qed.

End Visits.

(** What a returned call has gone through, in one statement. *)
Lemma namer_visits (fuel : nat) (b64 : string) (cell : NotebookCell)
    (fn ft : string) (a : Attachment) :
  namer fuel b64 cell fn ft = Returned a ->
  filename a = fn +:+ ft
  \/ exists k,
       (2 <= k)%N
       /\ filename a = suffixed fn k ft
       /\ occupied b64 (inputStore cell) (fn +:+ ft)
       /\ forall j, (2 <= j < k)%N ->
                    occupied b64 (inputStore cell) (suffixed fn j ft).
Proof.
  unfold namer. intros H.
  destruct (namer_returned _ _ _ _ _ _ _ H) as [_ [[_ Hname]|Hloop]];
    [by left|].
  destruct Hloop as (store & Hstore & _ & Hloop).
  unfold inputStore. rewrite Hstore.
  apply loop_visits in Hloop. cbn [appendValue tempFilename] in Hloop.
  destruct Hloop as [->|(Hocc & k & Hk & -> & Hall)]; [by left|].
  right. by exists k.
Qed.

(** X11: names are handed out in order.  The settled name is
    [filename + filetype], or [filename-k + filetype] for some [k >= 2], and
    then [filename + filetype] and every [filename-j + filetype] with
    [2 <= j < k] are keys of the store whose first payload is not the new
    one: no free or matching name is skipped. *)
Theorem namer_first_available (fuel : nat) (b64 : string) (cell : NotebookCell)
    (fn ft : string) (a : Attachment) :
  namer fuel b64 cell fn ft = Returned a ->
  filename a = fn +:+ ft
  \/ exists k,
       (2 <= k)%N
       /\ filename a = suffixed fn k ft
       /\ occupied b64 (inputStore cell) (fn +:+ ft)
       /\ forall j, (2 <= j < k)%N ->
                    occupied b64 (inputStore cell) (suffixed fn j ft).
Proof. apply namer_visits. Qed.

Lemma namer_first_available_witness :
  namer 3 "Z" (cellWithStore storeXY) "img" ".png"
    = Returned
        {| metadata :=
             cellMetadata
               (cellWithStore (<[ "img-3.png" := [("image/png", "Z")] ]> storeXY));
           filename := "img-3.png" |}
  /\ ("img-3.png" = "img" +:+ ".png"
      \/ exists k,
           (2 <= k)%N
           /\ "img-3.png" = suffixed "img" k ".png"
           /\ occupied "Z" storeXY ("img" +:+ ".png")
           /\ forall j, (2 <= j < k)%N ->
                        occupied "Z" storeXY (suffixed "img" j ".png")).
Proof.
  assert (H : namer 3 "Z" (cellWithStore storeXY) "img" ".png"
              = Returned
                  {| metadata :=
                       cellMetadata
                         (cellWithStore
                            (<[ "img-3.png" := [("image/png", "Z")] ]> storeXY));
                     filename := "img-3.png" |})
    by (vm_compute; reflexivity).
  split; [exact H|].
  exact (namer_first_available 3 "Z" (cellWithStore storeXY) "img" ".png" _ H).
Defined.

(** X12: the suffix stays small.  A settled name [filename-k + filetype]
    has [2 <= k <= n + 1], where [n] is the number of names in the store. *)
Theorem namer_suffix_bound (fuel : nat) (b64 : string) (cell : NotebookCell)
    (fn ft : string) (a : Attachment) :
  namer fuel b64 cell fn ft = Returned a ->
  filename a = fn +:+ ft
  \/ exists k,
       (2 <= k <= N.of_nat (size (inputStore cell)) + 1)%N
       /\ filename a = suffixed fn k ft.
Proof.
  intros H. destruct (namer_visits _ _ _ _ _ _ H)
    as [Hname|(k & Hk & Hname & Hplain & Hall)]; [by left|].
  right. exists k. split; [|done]. split; [done|].
  by eapply visits_bound.
Qed.

Lemma namer_suffix_bound_witness :
  namer 3 "Z" (cellWithStore storeXY) "img" ".png"
    = Returned
        {| metadata :=
             cellMetadata
               (cellWithStore (<[ "img-3.png" := [("image/png", "Z")] ]> storeXY));
           filename := "img-3.png" |}
  /\ ("img-3.png" = "img" +:+ ".png"
      \/ exists k,
           (2 <= k <= N.of_nat (size (inputStore (cellWithStore storeXY))) + 1)%N
           /\ "img-3.png" = suffixed "img" k ".png").
Proof.
  assert (H : namer 3 "Z" (cellWithStore storeXY) "img" ".png"
              = Returned
                  {| metadata :=
                       cellMetadata
                         (cellWithStore
                            (<[ "img-3.png" := [("image/png", "Z")] ]> storeXY));
                     filename := "img-3.png" |})
    by (vm_compute; reflexivity).
  split; [exact H|].
  exact (namer_suffix_bound 3 "Z" (cellWithStore storeXY) "img" ".png" _ H).
Defined.

(** X13: pasting the same image again changes nothing.  Run on the cell as
    updated by a first call, with the same payload and names, the namer
    returns the same name and the same metadata. *)
Theorem namer_idempotent (fuel : nat) (b64 : string) (cell : NotebookCell)
    (fn ft : string) (a : Attachment) :
  namer fuel b64 cell fn ft = Returned a ->
  namer (S fuel) b64 (withMetadata cell (metadata a)) fn ft = Returned a.
Proof.
  unfold namer, buildAttachment, cellAttachments.
  change (cellMetadata (withMetadata cell (metadata a))) with (metadata a).
  destruct (custom (cellMetadata cell)) as [c|].
  - destruct (attachments c) as [existing|].
    + destruct (collisionLoop fuel b64 fn ft existing _) as [settled|] eqn:Hloop;
        [|done].
      intros [= <-]. cbn [metadata custom attachments customRest metadataRest].
      apply (loop_again _ _ _ _ _ _ _ "image/png") in Hloop.
      apply (loop_more_fuel _ _ _ _ fuel (S fuel)) in Hloop; [|lia].
      unfold newRecord. rewrite Hloop. by rewrite insert_insert_eq.
    + intros [= <-]. cbn [metadata custom attachments customRest metadataRest].
      rewrite loop_S.
      erewrite pass_same_payload by apply lookup_singleton_eq.
      cbn [tempFilename]. by rewrite insert_singleton_eq.
  - intros [= <-]. cbn [metadata custom attachments customRest metadataRest].
    rewrite loop_S.
    erewrite pass_same_payload by apply lookup_singleton_eq.
    cbn [tempFilename]. by rewrite insert_singleton_eq.
Qed.

Lemma namer_idempotent_witness :
  namer 2 "Y" (cellWithStore storeX) "img" ".png"
    = Returned
        {| metadata := cellMetadata (cellWithStore storeXY);
           filename := "img-2.png" |}
  /\ namer 3 "Y" (cellWithStore storeXY) "img" ".png"
     = Returned
         {| metadata := cellMetadata (cellWithStore storeXY);
            filename := "img-2.png" |}.
Proof.
  assert (H : namer 2 "Y" (cellWithStore storeX) "img" ".png"
              = Returned
                  {| metadata := cellMetadata (cellWithStore storeXY);
                     filename := "img-2.png" |})
    by (vm_compute; reflexivity).
  split; [exact H|].
  exact (namer_idempotent 2 "Y" (cellWithStore storeX) "img" ".png" _ H).
Defined.

End NamerMore.

(* ===================================================================== *)
(** * Further properties of the orchestration *)
(* ===================================================================== *)

Module PasteMore.
Import Base64 Notebook ImagePaste Providers Vocabulary.
Import Base64Facts NamerFacts NamerMore.

Local Open Scope nat_scope.

(** ** Splitting the suggested name *)

Lemma lastIndexOf_range (s : string) (ch : ascii) :
  (-1 <= lastIndexOf s ch < Z.of_nat (String.length s))%Z.
Proof.
  induction s as [|ch' s IH]; [simpl; lia|].
  cbn [lastIndexOf String.length].
  destruct (0 <=? lastIndexOf s ch)%Z eqn:Hlater; [lia|].
  destruct (Ascii.eqb ch' ch); lia.
Qed.

Lemma length_substring (s : string) (n m : nat) :
  String.length (String.substring n m s) = Nat.min m (String.length s - n).
Proof.
  revert n m. induction s as [|ch s IH]; intros n m.
  - by destruct n, m.
  - destruct n as [|n]; [destruct m as [|m]|]; simpl; [done| |apply IH].
    by rewrite IH, Nat.sub_0_r.
Qed.

Lemma isEmpty_length (s : string) : isEmpty s = true <-> String.length s = 0.
Proof. by destruct s. Qed.

Lemma substring_all (s : string) : String.substring 0 (String.length s) s = s.
Proof. induction s as [|ch s IH]; [done|]. simpl. by rewrite IH. Qed.

Lemma substring_split (s : string) (c : nat) :
  c <= String.length s ->
  String.substring 0 c s +:+ String.substring c (String.length s - c) s = s.
Proof.
  revert c. induction s as [|ch s IH]; intros c Hc.
  - by destruct c.
  - destruct c as [|c].
    + change (String.substring 0 0 (String ch s)) with EmptyString.
      rewrite append_nil_l, Nat.sub_0_r. apply substring_all.
    + simpl in Hc. simpl String.substring. simpl String.length.
      rewrite append_cons. f_equal. apply IH. lia.
Qed.

Lemma cutPoint_le (s : string) (i : Z) : cutPoint s i <= String.length s.
Proof. unfold cutPoint, sliceIndex. destruct (Z.ltb_spec i 0); lia. Qed.

Lemma slice_prefix (s : string) (i : Z) :
  slice s 0 i = String.substring 0 (cutPoint s i) s.
Proof.
  unfold slice, cutPoint.
  set (len := Z.of_nat (String.length s)).
  assert (Hlen : (0 <= len)%Z) by (unfold len; lia).
  assert (H0 : sliceIndex len 0 = 0%Z) by (unfold sliceIndex; simpl; lia).
  assert (Hc : (0 <= sliceIndex len i)%Z)
    by (unfold sliceIndex; destruct (Z.ltb_spec i 0); lia).
  rewrite H0. f_equal. lia.
Qed.

Lemma sliceFrom_suffix (s : string) (i : Z) :
  sliceFrom s i =
  String.substring (cutPoint s i) (String.length s - cutPoint s i) s.
Proof.
  unfold sliceFrom, slice, cutPoint.
  set (len := Z.of_nat (String.length s)).
  assert (Hlen : (0 <= len)%Z) by (unfold len; lia).
  assert (Hl : sliceIndex len len = len).
  { unfold sliceIndex. destruct (Z.ltb_spec len 0); lia. }
  assert (Hc : (0 <= sliceIndex len i <= len)%Z)
    by (unfold sliceIndex; destruct (Z.ltb_spec i 0); lia).
  rewrite Hl. f_equal. unfold len in *. lia.
Qed.

Lemma split_lossless (s : string) (i : Z) : slice s 0 i +:+ sliceFrom s i = s.
Proof.
  rewrite slice_prefix, sliceFrom_suffix.
  apply substring_split, cutPoint_le.
Qed.

Lemma cutPoint_lastIndexOf (s : string) :
  cutPoint s (lastIndexOf s ".") =
  if (lastIndexOf s "." <? 0)%Z then String.length s - 1
  else Z.to_nat (lastIndexOf s ".").
Proof.
  pose proof (lastIndexOf_range s ".") as Hr.
  unfold cutPoint, sliceIndex. destruct (Z.ltb_spec (lastIndexOf s ".") 0); lia.
Qed.

(** The guard on the two parts, in terms of the name. *)
Lemma guard_spec (s : string) :
  isEmpty s || (isEmpty (filenameOf s) || isEmpty (filetypeOf s)) = true
  <-> lastIndexOf s "." = 0%Z \/ String.length s <= 1.
Proof.
  unfold filenameOf, filetypeOf.
  rewrite !orb_true_iff, !isEmpty_length.
  rewrite slice_prefix, sliceFrom_suffix, !length_substring.
  rewrite cutPoint_lastIndexOf.
  pose proof (lastIndexOf_range s ".") as Hr.
  destruct (Z.ltb_spec (lastIndexOf s ".") 0); lia.
Qed.

(** ** What a returned edit is made of *)

Lemma buildImageMarkdown_inv (fuel : nat) (notebookDocuments : list NotebookDocument)
    (dataTransfer : gmap string DataTransferItem) (document : TextDocument)
    (result : ImageMarkdown) :
  buildImageMarkdown fuel notebookDocuments dataTransfer document
    = Returned (Some result) ->
  exists item file cell a,
    dataTransfer !! "image/png" = Some item
    /\ asFile item = Some file
    /\ getCellFromCellDocument notebookDocuments document = Some cell
    /\ isEmpty (name file)
       || (isEmpty (filenameOf (name file)) || isEmpty (filetypeOf (name file)))
       = false
    /\ namer fuel (encodeBase64Default (data file)) cell
         (filenameOf (name file)) (filetypeOf (name file)) = Returned a
    /\ result =
       {| snippet := snippetFor (name file) (filename a);
          edit := {| editUri := cellNotebookUri cell;
                     editCellIndex := cellIndex cell;
                     editMetadata := metadata a |} |}.
Proof.
  unfold buildImageMarkdown.
  destruct (dataTransfer !! "image/png") as [item|] eqn:Hitem; [|done].
  destruct (asFile item) as [file|] eqn:Hfile; [|done].
  destruct (isEmpty (name file)) eqn:E1; [done|].
  fold (filenameOf (name file)). fold (filetypeOf (name file)).
  destruct (isEmpty (filenameOf (name file)) || isEmpty (filetypeOf (name file)))
    eqn:E2; [done|].
  destruct (getCellFromCellDocument notebookDocuments document) as [cell|]
    eqn:Hcell; [|done].
  fold (namer fuel (encodeBase64Default (data file)) cell
          (filenameOf (name file)) (filetypeOf (name file))).
  destruct (namer _ _ _ _ _) as [a| |] eqn:Hn; [|done..].
  intros [= <-]. exists item, file, cell, a.
  repeat split; try done. by rewrite E1, E2.
Qed.

Lemma buildImageMarkdown_run (fuel : nat) (notebookDocuments : list NotebookDocument)
    (dataTransfer : gmap string DataTransferItem) (document : TextDocument)
    (item : DataTransferItem) (file : DataTransferFile) (cell : NotebookCell) :
  dataTransfer !! "image/png" = Some item ->
  asFile item = Some file ->
  getCellFromCellDocument notebookDocuments document = Some cell ->
  buildImageMarkdown fuel notebookDocuments dataTransfer document =
  if isEmpty (name file)
     || (isEmpty (filenameOf (name file)) || isEmpty (filetypeOf (name file)))
  then Returned None
  else
    match namer fuel (encodeBase64Default (data file)) cell
            (filenameOf (name file)) (filetypeOf (name file)) with
    | Returned a =>
        Returned
          (Some {| snippet := snippetFor (name file) (filename a);
                   edit := {| editUri := cellNotebookUri cell;
                              editCellIndex := cellIndex cell;
                              editMetadata := metadata a |} |})
    | Threw => Threw
    | OutOfFuel => OutOfFuel
    end.
Proof.
  intros Hitem Hfile Hcell. unfold buildImageMarkdown.
  rewrite Hitem, Hfile, Hcell.
  fold (filenameOf (name file)). fold (filetypeOf (name file)).
  destruct (isEmpty (name file)); [done|].
  by destruct (isEmpty (filenameOf (name file)) || isEmpty (filetypeOf (name file))).
Qed.


(** ** When the function declines *)

(** X14: the function declines exactly for want of an input.  It returns
    [undefined] if and only if the transfer has no ['image/png'] item, or
    the item is not a file, or the file name is at most one character long
    or has its last ['.'] at the very start, or no open notebook owns the
    document. *)
Theorem buildImageMarkdown_declines (fuel : nat)
    (notebookDocuments : list NotebookDocument)
    (dataTransfer : gmap string DataTransferItem) (document : TextDocument) :
  buildImageMarkdown fuel notebookDocuments dataTransfer document = Returned None
  <->
  forall item file,
    dataTransfer !! "image/png" = Some item ->
    asFile item = Some file ->
    lastIndexOf (name file) "." = 0%Z
    \/ String.length (name file) <= 1
    \/ getCellFromCellDocument notebookDocuments document = None.
Proof.
  destruct (dataTransfer !! "image/png") as [item|] eqn:Hitem; cycle 1.
  { unfold buildImageMarkdown. rewrite Hitem. by split. }
  destruct (asFile item) as [file|] eqn:Hfile; cycle 1.
  { unfold buildImageMarkdown. rewrite Hitem, Hfile.
    split; [|done]. intros _ ? ? [= <-]. congruence. }
  destruct (getCellFromCellDocument notebookDocuments document) as [cell|]
    eqn:Hcell; cycle 1.
  { split; [intros _ ? ? _ _; auto|]. intros _.
    unfold buildImageMarkdown. rewrite Hitem, Hfile, Hcell.
    destruct (isEmpty (name file)); [done|]. by destruct (_ || _). }
  rewrite (buildImageMarkdown_run _ _ _ _ _ _ _ Hitem Hfile Hcell).
  pose proof (guard_spec (name file)) as Hguard.
  destruct (isEmpty (name file)
            || (isEmpty (filenameOf (name file))
                || isEmpty (filetypeOf (name file)))).
  - split; [|done]. intros _ ? ? [= <-]. rewrite Hfile. intros [= <-].
    destruct (proj1 Hguard eq_refl); auto.
  - split.
    + by destruct (namer _ _ _ _ _).
    + intros H. destruct (H item file eq_refl Hfile) as [H0|[H1|H2]];
        [| |done].
      * discriminate (proj2 Hguard (or_introl H0)).
      * discriminate (proj2 Hguard (or_intror H1)).
Qed.

(** ** What a returned edit says *)

(** The attachment an edit stores, read back. *)
Lemma edit_roundtrip (fuel : nat) (notebookDocuments : list NotebookDocument)
    (dataTransfer : gmap string DataTransferItem) (document : TextDocument)
    (result : ImageMarkdown) :
  buildImageMarkdown fuel notebookDocuments dataTransfer document
    = Returned (Some result) ->
  exists item file cell chosen payload store,
    dataTransfer !! "image/png" = Some item
    /\ asFile item = Some file
    /\ getCellFromCellDocument notebookDocuments document = Some cell
    /\ snippet result = snippetFor (name file) chosen
    /\ editUri (edit result) = cellNotebookUri cell
    /\ editCellIndex (edit result) = cellIndex cell
    /\ cellAttachments (editMetadata (edit result)) = Some store
    /\ store !! chosen = Some [("image/png", payload)]
    /\ decodeBase64Standard payload = Some (data file).
Proof.
  intros H.
  destruct (buildImageMarkdown_inv _ _ _ _ _ H)
    as (item & file & cell & a & Hitem & Hfile & Hcell & _ & Hn & ->).
  unfold namer in Hn. apply buildAttachment_store in Hn.
  exists item, file, cell, (filename a), (encodeBase64Default (data file)).
  exists (<[ filename a := [("image/png", encodeBase64Default (data file))] ]>
            (inputStore cell)).
  repeat split; try done.
  - apply lookup_insert_eq.
  - unfold encodeBase64Default. rewrite encodeBase64_groups.
    apply decode_encodeGroups.
Qed.

(** X16: what is stored is what was pasted.  A returned edit targets the
    owning cell of the document, its snippet is
    [![<suggested name>](attachment:<chosen>)], and in the metadata it
    carries, the record under [<chosen>] has the single entry ["image/png"]
    whose payload decodes to the bytes of the pasted file. *)
Theorem buildImageMarkdown_roundtrip (fuel : nat)
    (notebookDocuments : list NotebookDocument)
    (dataTransfer : gmap string DataTransferItem) (document : TextDocument)
    (result : ImageMarkdown) :
  buildImageMarkdown fuel notebookDocuments dataTransfer document
    = Returned (Some result) ->
  exists item file cell chosen payload store,
    dataTransfer !! "image/png" = Some item
    /\ asFile item = Some file
    /\ getCellFromCellDocument notebookDocuments document = Some cell
    /\ snippet result = snippetFor (name file) chosen
    /\ editUri (edit result) = cellNotebookUri cell
    /\ editCellIndex (edit result) = cellIndex cell
    /\ cellAttachments (editMetadata (edit result)) = Some store
    /\ store !! chosen = Some [("image/png", payload)]
    /\ decodeBase64Standard payload = Some (data file).
Proof. apply edit_roundtrip. Qed.

(** The edit a paste of [shotFile] into [shotCell] gives: the name
    ["shot.png"] is taken by other content, so the image goes under
    ["shot-2.png"]. *)
Lemma shot_paste :
  buildImageMarkdown 2 [freshNotebook; shotNotebook] (transferOf shotFile)
    shotDocument
  = Returned
      (Some
         {| snippet := snippetFor "shot.png" "shot-2.png";
            edit :=
              {| editUri := "/nb.ipynb";
                 editCellIndex := 4;
                 editMetadata :=
                   {| custom :=
                        Some {| attachments :=
                                  Some (<[ "shot-2.png" := [("image/png", "iVBORw==")] ]>
                                          storeShot);
                                customRest := {[ "tags" := "[]" ]} |};
                      metadataRest := {[ "collapsed" := "false" ]} |} |} |}).
Proof. vm_compute. reflexivity. Qed.

Lemma buildImageMarkdown_roundtrip_witness :
  exists item file cell chosen payload store,
    transferOf shotFile !! "image/png" = Some item
    /\ asFile item = Some file
    /\ getCellFromCellDocument [freshNotebook; shotNotebook] shotDocument
       = Some cell
    /\ snippetFor "shot.png" "shot-2.png" = snippetFor (name file) chosen
    /\ "/nb.ipynb" = cellNotebookUri cell
    /\ 4 = cellIndex cell
    /\ Some (<[ "shot-2.png" := [("image/png", "iVBORw==")] ]> storeShot)
       = Some store
    /\ store !! chosen = Some [("image/png", payload)]
    /\ decodeBase64Standard payload = Some (data file).
Proof.
  exact (buildImageMarkdown_roundtrip 2 [freshNotebook; shotNotebook]
           (transferOf shotFile) shotDocument _ shot_paste).
Defined.

(** X17: the attachment keeps the suggested name when it can.  The chosen
    name is the suggested file name itself, or the suggested name with
    [-k], [k >= 2], inserted at the split point, and it is the suggested
    name itself whenever the cell had no attachments map. *)
Theorem buildImageMarkdown_chosen_name (fuel : nat)
    (notebookDocuments : list NotebookDocument)
    (dataTransfer : gmap string DataTransferItem) (document : TextDocument)
    (result : ImageMarkdown) :
  buildImageMarkdown fuel notebookDocuments dataTransfer document
    = Returned (Some result) ->
  exists item file cell chosen,
    dataTransfer !! "image/png" = Some item
    /\ asFile item = Some file
    /\ getCellFromCellDocument notebookDocuments document = Some cell
    /\ snippet result = snippetFor (name file) chosen
    /\ filenameOf (name file) +:+ filetypeOf (name file) = name file
    /\ (chosen = name file
        \/ exists k, (2 <= k)%N
             /\ chosen = suffixed (filenameOf (name file)) k (filetypeOf (name file)))
    /\ (cellAttachments (cellMetadata cell) = None -> chosen = name file).
Proof.
  intros H.
  destruct (buildImageMarkdown_inv _ _ _ _ _ H)
    as (item & file & cell & a & Hitem & Hfile & Hcell & _ & Hn & ->).
  pose proof (split_lossless (name file) (lastIndexOf (name file) ".")) as Hsplit.
  fold (filenameOf (name file)) in Hsplit. fold (filetypeOf (name file)) in Hsplit.
  exists item, file, cell, (filename a). repeat split; try done.
  - destruct (namer_visits _ _ _ _ _ _ Hn) as [Hname|(k & Hk & Hname & _)].
    + left. by rewrite Hname.
    + right. by exists k.
  - intros Hnone. unfold namer in Hn.
    destruct (namer_returned _ _ _ _ _ _ _ Hn) as [_ [[_ Hname]|Hloop]].
    + by rewrite Hname.
    + destruct Hloop as (? & _ & [? Hsome] & _). congruence.
Qed.

Lemma buildImageMarkdown_chosen_name_witness :
  exists item file cell chosen,
    transferOf shotFile !! "image/png" = Some item
    /\ asFile item = Some file
    /\ getCellFromCellDocument [freshNotebook; shotNotebook] shotDocument
       = Some cell
    /\ snippetFor "shot.png" "shot-2.png" = snippetFor (name file) chosen
    /\ filenameOf (name file) +:+ filetypeOf (name file) = name file
    /\ (chosen = name file
        \/ exists k, (2 <= k)%N
             /\ chosen = suffixed (filenameOf (name file)) k (filetypeOf (name file)))
    /\ (cellAttachments (cellMetadata cell) = None -> chosen = name file).
Proof.
  exact (buildImageMarkdown_chosen_name 2 [freshNotebook; shotNotebook]
           (transferOf shotFile) shotDocument _ shot_paste).
Defined.

(** X18: a well-formed paste gets its edit.  With a file whose name has two
    or more characters, does not have its last ['.'] at the start and is not
    the name of a member every object inherits, an owning cell, and entries
    in every stored record, the function returns an edit once the fuel
    covers [size store + 2] passes of the loop. *)
Theorem buildImageMarkdown_returns (notebookDocuments : list NotebookDocument)
    (dataTransfer : gmap string DataTransferItem) (document : TextDocument)
    (item : DataTransferItem) (file : DataTransferFile) (cell : NotebookCell) :
  dataTransfer !! "image/png" = Some item ->
  asFile item = Some file ->
  lastIndexOf (name file) "." <> 0%Z ->
  2 <= String.length (name file) ->
  inheritedName (name file) = false ->
  getCellFromCellDocument notebookDocuments document = Some cell ->
  (forall k r, inputStore cell !! k = Some r -> r <> []) ->
  exists result,
    forall fuel, size (inputStore cell) + 2 <= fuel ->
      buildImageMarkdown fuel notebookDocuments dataTransfer document
      = Returned (Some result).
Proof.
  intros Hitem Hfile Hdot Hlen Hinh Hcell Hrecords.
  pose proof (split_lossless (name file) (lastIndexOf (name file) ".")) as Hsplit.
  fold (filenameOf (name file)) in Hsplit. fold (filetypeOf (name file)) in Hsplit.
  destruct (namer_returns (encodeBase64Default (data file)) cell
              (filenameOf (name file)) (filetypeOf (name file)) Hrecords)
    as [a Ha].
  { intros _. by rewrite Hsplit. }
  eexists. intros fuel Hfuel.
  rewrite (buildImageMarkdown_run _ _ _ _ _ _ _ Hitem Hfile Hcell).
  pose proof (guard_spec (name file)) as Hguard.
  destruct (isEmpty (name file)
            || (isEmpty (filenameOf (name file))
                || isEmpty (filetypeOf (name file)))).
  - destruct (proj1 Hguard eq_refl); [done|lia].
  - by rewrite (Ha fuel Hfuel).
Qed.

Lemma buildImageMarkdown_returns_witness :
  exists result,
    forall fuel, size (inputStore shotCell) + 2 <= fuel ->
      buildImageMarkdown fuel [freshNotebook; shotNotebook] (transferOf shotFile)
        shotDocument = Returned (Some result).
Proof.
  apply (buildImageMarkdown_returns [freshNotebook; shotNotebook]
           (transferOf shotFile) shotDocument
           {| asFile := Some shotFile |} shotFile shotCell).
  - reflexivity.
  - reflexivity.
  - vm_compute. discriminate.
  - vm_compute. lia.
  - reflexivity.
  - reflexivity.
  - intros k r. change (inputStore shotCell) with storeShot.
    unfold storeShot. intros Hk.
    apply lookup_singleton_Some in Hk as [_ <-]. done.
Defined.

End PasteMore.

(* ===================================================================== *)
(** * Properties of the providers *)
(* ===================================================================== *)

Module ProviderFacts.
Import Base64 Notebook ImagePaste Providers Vocabulary.
Import PasteMore.

Local Open Scope nat_scope.

Lemma getSetting_default_false (configuration : gmap string bool) (key : string) :
  getSetting configuration key false = true <-> configuration !! key = Some true.
Proof.
  unfold getSetting. destruct (configuration !! key) as [[|]|]; split; congruence.
Qed.

(** X19: both features are off unless switched on.  When the paste flag is
    unset or false for the document, the paste provider returns [undefined]
    whatever is pasted and whatever the drop flag says; likewise for the
    drop provider and the drop flag. *)
Theorem providers_off_by_default (fuel : nat)
    (getConfiguration : TextDocument -> gmap string bool)
    (notebookDocuments : list NotebookDocument)
    (document : TextDocument) (dataTransfer : gmap string DataTransferItem) :
  (getConfiguration document !! "experimental.pasteImages.enabled" <> Some true ->
   provideDocumentPasteEdits fuel getConfiguration notebookDocuments document
     dataTransfer = Returned None)
  /\ (getConfiguration document !! "experimental.dropImages.enabled" <> Some true ->
      provideDocumentDropEdits fuel getConfiguration notebookDocuments document
        dataTransfer = Returned None).
Proof.
  split; intros Hoff.
  - unfold provideDocumentPasteEdits.
    destruct (getSetting _ _ false) eqn:Hset; [|done].
    by apply getSetting_default_false in Hset.
  - unfold provideDocumentDropEdits.
    destruct (getSetting _ _ false) eqn:Hset; [|done].
    by apply getSetting_default_false in Hset.
Qed.

Lemma providers_off_by_default_witness :
  dropEnabled shotDocument !! "experimental.pasteImages.enabled" <> Some true
  /\ provideDocumentPasteEdits 2 dropEnabled [freshNotebook; shotNotebook]
       shotDocument (transferOf shotFile) = Returned None.
Proof.
  assert (H : dropEnabled shotDocument !! "experimental.pasteImages.enabled"
              <> Some true) by (vm_compute; discriminate).
  split; [exact H|].
  exact (proj1 (providers_off_by_default 2 dropEnabled
                  [freshNotebook; shotNotebook] shotDocument
                  (transferOf shotFile)) H).
Defined.

(** X20: what the paste provider inserts.  An edit is returned only with
    the paste flag on, and then the inserted text references an attachment
    that the additional edit stores in the owning cell, with a payload that
    decodes to the pasted bytes. *)
Theorem provideDocumentPasteEdits_edit (fuel : nat)
    (getConfiguration : TextDocument -> gmap string bool)
    (notebookDocuments : list NotebookDocument)
    (document : TextDocument) (dataTransfer : gmap string DataTransferItem)
    (e : DocumentPasteEdit) :
  provideDocumentPasteEdits fuel getConfiguration notebookDocuments document
    dataTransfer = Returned (Some e) ->
  getConfiguration document !! "experimental.pasteImages.enabled" = Some true
  /\ exists item file cell chosen payload store,
       dataTransfer !! "image/png" = Some item
       /\ asFile item = Some file
       /\ getCellFromCellDocument notebookDocuments document = Some cell
       /\ pasteInsertText e = snippetFor (name file) chosen
       /\ editUri (pasteAdditionalEdit e) = cellNotebookUri cell
       /\ editCellIndex (pasteAdditionalEdit e) = cellIndex cell
       /\ cellAttachments (editMetadata (pasteAdditionalEdit e)) = Some store
       /\ store !! chosen = Some [("image/png", payload)]
       /\ decodeBase64Standard payload = Some (data file).
Proof.
  unfold provideDocumentPasteEdits.
  destruct (getSetting _ _ false) eqn:Hset; [|done].
  apply getSetting_default_false in Hset. simpl.
  destruct (buildImageMarkdown _ _ _ _) as [[r|]| |] eqn:Hr; try done.
  intros [= <-]. split; [done|]. simpl.
  exact (edit_roundtrip _ _ _ _ _ Hr).
Qed.

Lemma provideDocumentPasteEdits_edit_witness :
  provideDocumentPasteEdits 2 pasteEnabled [freshNotebook; shotNotebook]
    shotDocument (transferOf shotFile)
  = Returned
      (Some {| pasteInsertText := snippetFor "shot.png" "shot-2.png";
               pasteAdditionalEdit :=
                 {| editUri := "/nb.ipynb";
                    editCellIndex := 4;
                    editMetadata :=
                      cellMetadata
                        (withMetadata shotCell
                           {| custom :=
                                Some {| attachments :=
                                          Some (<[ "shot-2.png" :=
                                                     [("image/png", "iVBORw==")] ]>
                                                  storeShot);
                                        customRest := {[ "tags" := "[]" ]} |};
                              metadataRest := {[ "collapsed" := "false" ]} |}) |} |})
  /\ pasteEnabled shotDocument !! "experimental.pasteImages.enabled" = Some true.
Proof.
  assert (H : provideDocumentPasteEdits 2 pasteEnabled
                [freshNotebook; shotNotebook] shotDocument (transferOf shotFile)
              = Returned
                  (Some {| pasteInsertText := snippetFor "shot.png" "shot-2.png";
                           pasteAdditionalEdit :=
                             {| editUri := "/nb.ipynb";
                                editCellIndex := 4;
                                editMetadata :=
                                  cellMetadata
                                    (withMetadata shotCell
                                       {| custom :=
                                            Some {| attachments :=
                                                      Some (<[ "shot-2.png" :=
                                                                 [("image/png", "iVBORw==")] ]>
                                                              storeShot);
                                                    customRest := {[ "tags" := "[]" ]} |};
                                          metadataRest :=
                                            {[ "collapsed" := "false" ]} |}) |} |}))
    by (vm_compute; reflexivity).
  split; [exact H|].
  exact (proj1 (provideDocumentPasteEdits_edit _ _ _ _ _ _ H)).
Defined.

(** X21: what the drop provider inserts.  An edit is returned only with
    the drop flag on, and then the inserted text references an attachment
    that the additional edit stores in the owning cell, with a payload that
    decodes to the dropped bytes. *)
Theorem provideDocumentDropEdits_edit (fuel : nat)
    (getConfiguration : TextDocument -> gmap string bool)
    (notebookDocuments : list NotebookDocument)
    (document : TextDocument) (dataTransfer : gmap string DataTransferItem)
    (e : DocumentDropEdit) :
  provideDocumentDropEdits fuel getConfiguration notebookDocuments document
    dataTransfer = Returned (Some e) ->
  getConfiguration document !! "experimental.dropImages.enabled" = Some true
  /\ exists item file cell chosen payload store,
       dataTransfer !! "image/png" = Some item
       /\ asFile item = Some file
       /\ getCellFromCellDocument notebookDocuments document = Some cell
       /\ dropInsertText e = snippetFor (name file) chosen
       /\ editUri (dropAdditionalEdit e) = cellNotebookUri cell
       /\ editCellIndex (dropAdditionalEdit e) = cellIndex cell
       /\ cellAttachments (editMetadata (dropAdditionalEdit e)) = Some store
       /\ store !! chosen = Some [("image/png", payload)]
       /\ decodeBase64Standard payload = Some (data file).
Proof.
  unfold provideDocumentDropEdits.
  destruct (getSetting _ _ false) eqn:Hset; [|done].
  apply getSetting_default_false in Hset. simpl.
  destruct (buildImageMarkdown _ _ _ _) as [[r|]| |] eqn:Hr; try done.
  intros [= <-]. split; [done|]. simpl.
  exact (edit_roundtrip _ _ _ _ _ Hr).
Qed.

Lemma provideDocumentDropEdits_edit_witness :
  provideDocumentDropEdits 0 dropEnabled [freshNotebook] markdownDocument
    (transferOf shotFile)
  = Returned
      (Some {| dropInsertText := snippetFor "shot.png" "shot.png";
               dropAdditionalEdit :=
                 {| editUri := "/nb.ipynb";
                    editCellIndex := 0;
                    editMetadata :=
                      {| custom :=
                           Some {| attachments :=
                                     Some {[ "shot.png" := [("image/png", "iVBORw==")] ]};
                                   customRest := ∅ |};
                         metadataRest := ∅ |} |} |})
  /\ dropEnabled markdownDocument !! "experimental.dropImages.enabled" = Some true.
Proof.
  assert (H : provideDocumentDropEdits 0 dropEnabled [freshNotebook]
                markdownDocument (transferOf shotFile)
              = Returned
                  (Some {| dropInsertText := snippetFor "shot.png" "shot.png";
                           dropAdditionalEdit :=
                             {| editUri := "/nb.ipynb";
                                editCellIndex := 0;
                                editMetadata :=
                                  {| custom :=
                                       Some {| attachments :=
                                                 Some {[ "shot.png" :=
                                                           [("image/png", "iVBORw==")] ]};
                                               customRest := ∅ |};
                                     metadataRest := ∅ |} |} |}))
    by (vm_compute; reflexivity).
  split; [exact H|].
  exact (proj1 (provideDocumentDropEdits_edit _ _ _ _ _ _ H)).
Defined.

End ProviderFacts.
